(** * appimagelint: the icon check ([appimagelint/checks/icons.py])

    A shallow embedding of [IconsCheck] and of the Python library functions
    it calls, followed by the properties of the check.

    Conventions of the embedding.
    - Python [str] values are [string]s (ASCII text; the functions below read
      bytes, which agrees with Python on UTF-8 text for the characters the
      check looks at: newline, [/], [.], [x], digits and the letters of
      [Icon=]).
    - Paths are strings with [/] as separator, written relative to the
      mount point: [op.join(mountpoint, p)] is [p].
    - A generator is the list of the values it yields together with the way
      it ends (returns, or raises). *)

From Stdlib Require Import String Ascii List ZArith Bool Lia.
Import ListNotations.
Local Open Scope string_scope.
Local Open Scope list_scope.
Local Open Scope Z_scope.

(** ** Python strings *)

Module PyStr.

Definition LF : ascii := "010"%char.

(** [s.startswith(p)]. *)
Fixpoint startswith (p s : string) : bool :=
  match p, s with
  | EmptyString, _ => true
  | String a p', String b s' => Ascii.eqb a b && startswith p' s'
  | String _ _, EmptyString => false
  end.

(** [s[len(p):]] when [s.startswith(p)]. *)
Fixpoint strip_prefix (p s : string) : option string :=
  match p, s with
  | EmptyString, _ => Some s
  | String a p', String b s' =>
      if Ascii.eqb a b then strip_prefix p' s' else None
  | String _ _, EmptyString => None
  end.

(** [c in s] for a one-character string [c]. *)
Fixpoint contains (c : ascii) (s : string) : bool :=
  match s with
  | EmptyString => false
  | String b s' => Ascii.eqb b c || contains c s'
  end.

(** [s.endswith(p)]. *)
Fixpoint endswith (p s : string) : bool :=
  String.eqb p s ||
  match s with
  | EmptyString => false
  | String _ s' => endswith p s'
  end.

(** [s.split(c)] for a one-character separator: never empty. *)
Fixpoint split (c : ascii) (s : string) : list string :=
  match s with
  | EmptyString => [EmptyString]
  | String b s' =>
      if Ascii.eqb b c then EmptyString :: split c s'
      else match split c s' with
           | l :: ls => String b l :: ls
           | [] => [String b EmptyString]
           end
  end.

(** [s.lstrip(c)] for a one-character set. *)
Fixpoint lstrip (c : ascii) (s : string) : string :=
  match s with
  | EmptyString => EmptyString
  | String b s' => if Ascii.eqb b c then lstrip c s' else s
  end.

(** [s.rfind(c)]: the last index of [c], [None] for Python's [-1]. *)
Fixpoint rfind (c : ascii) (s : string) : option nat :=
  match s with
  | EmptyString => None
  | String b s' =>
      match rfind c s' with
      | Some i => Some (S i)
      | None => if Ascii.eqb b c then Some O else None
      end
  end.

(** [s[i:]]. *)
Fixpoint drop (i : nat) (s : string) : string :=
  match i, s with
  | O, _ => s
  | S i', String _ s' => drop i' s'
  | S _, EmptyString => EmptyString
  end.

(** [s[:i]]. *)
Fixpoint take (i : nat) (s : string) : string :=
  match i, s with
  | O, _ => EmptyString
  | S i', String b s' => String b (take i' s')
  | S _, EmptyString => EmptyString
  end.

(** The whitespace [int()] skips around an ASCII literal. *)
Definition is_space (c : ascii) : bool :=
  let n := nat_of_ascii c in
  ((9 <=? n) && (n <=? 13))%nat || (n =? 32)%nat.

Definition is_digit (c : ascii) : bool :=
  let n := nat_of_ascii c in ((48 <=? n) && (n <=? 57))%nat.

Definition digit_val (c : ascii) : Z := Z.of_nat (nat_of_ascii c) - 48.

Fixpoint lstrip_space (s : string) : string :=
  match s with
  | EmptyString => EmptyString
  | String b s' => if is_space b then lstrip_space s' else s
  end.

Fixpoint rstrip_space (s : string) : string :=
  match s with
  | EmptyString => EmptyString
  | String b s' =>
      match rstrip_space s' with
      | EmptyString => if is_space b then EmptyString else String b EmptyString
      | r => String b r
      end
  end.

(** The digits of a decimal literal, with single underscores allowed
    between digits. [sep] says that the previous character was not a
    digit: then an underscore, or the end, is an error. *)
Fixpoint digits (s : string) (sep : bool) (acc : Z) : option Z :=
  match s with
  | EmptyString => if sep then None else Some acc
  | String c s' =>
      if is_digit c then digits s' false (10 * acc + digit_val c)
      else if Ascii.eqb c "_" && negb sep then digits s' true acc
      else None
  end.

(** [int(s)] for a string of ASCII characters: [None] when Python raises
    [ValueError]. Python accepts the decimal digits and the spaces of
    other scripts as well; a string that holds a character outside ASCII
    is rejected here. *)
Definition int (s : string) : option Z :=
  match rstrip_space (lstrip_space s) with
  | String "-" d => option_map Z.opp (digits d true 0)
  | String "+" d => digits d true 0
  | d => digits d true 0
  end.

End PyStr.

(** ** [os.path] *)

Module OsPath.

(** [op.basename(p)]: what follows the last [/]. *)
Definition basename (p : string) : string :=
  match PyStr.rfind "/" p with
  | Some i => PyStr.drop (S i) p
  | None => p
  end.

(** [op.splitext(p)]: the extension starts at the last dot of the last
    component, unless only dots precede it there. *)
Definition splitext (p : string) : string * string :=
  let filenameIndex :=
    match PyStr.rfind "/" p with Some i => S i | None => O end in
  match PyStr.rfind "." p with
  | Some dotIndex =>
      if (filenameIndex <=? dotIndex)%nat
         && negb (String.eqb
                    (PyStr.lstrip "." (PyStr.take (dotIndex - filenameIndex)
                                         (PyStr.drop filenameIndex p)))
                    EmptyString)
      then (PyStr.take dotIndex p, PyStr.drop dotIndex p)
      else (p, EmptyString)
  | None => (p, EmptyString)
  end.

(** [op.relpath(p, start)] for a path below [start]; other paths never
    reach it and are returned unchanged. *)
Definition relpath (p start : string) : string :=
  match PyStr.strip_prefix (start ++ "/")%string p with
  | Some r => r
  | None => p
  end.

End OsPath.

(** ** [re.search(r"Icon=(.+)", s)] *)

Module Re.

(** [(.+)] at the start of [s], greedy: every character up to the next
    newline, which the dot does not match. *)
Fixpoint dot_plus (s : string) : string :=
  match s with
  | EmptyString => EmptyString
  | String b s' =>
      if Ascii.eqb b PyStr.LF then EmptyString else String b (dot_plus s')
  end.

(** The pattern matched at the start of [s]: group 1. *)
Definition match_here (s : string) : option string :=
  match PyStr.strip_prefix "Icon=" s with
  | Some rest =>
      match dot_plus rest with
      | EmptyString => None
      | v => Some v
      end
  | None => None
  end.

(** [re.search]: the leftmost position where the pattern matches. *)
Fixpoint search_Icon (s : string) : option string :=
  match match_here s with
  | Some v => Some v
  | None =>
      match s with
      | EmptyString => None
      | String _ s' => search_Icon s'
      end
  end.

End Re.

(** ** The mounted AppImage *)

(** What [PIL.Image.open(path)] does: it gives an image, of which the check
    reads [size], or it raises (no such file, a directory, not an image). *)
Inductive pil_outcome : Type :=
| Opened (size : Z * Z)
| OpenRaises.

(** An entry of the mounted file system: its path below the mount point,
    what [open(path).read()] returns, [None] when [open] or [read] raises
    (a directory, a dangling link, bytes that are not text), and what
    [Image.open(path)] does. *)
Record File : Type := mkFile {
  f_path : string;
  f_text : option string;
  f_image : pil_outcome
}.

(** The mount: its entries in the order in which the operating system lists
    them, which is the order of the results of [glob.glob]. *)
Definition MountView : Type := list File.

Definition lookup (m : MountView) (p : string) : option File :=
  find (fun f => String.eqb (f_path f) p) m.

(** [Image.open(p)]: a path that is not in the mount raises too. *)
Definition Image_open (m : MountView) (p : string) : pil_outcome :=
  match lookup m p with
  | Some f => f_image f
  | None => OpenRaises
  end.

(** [open(p).read()]: [None] when it raises, as it does too for a path
    that is not in the mount. *)
Definition open_read (m : MountView) (p : string) : option string :=
  match lookup m p with
  | Some f => f_text f
  | None => None
  end.

(** ** [glob.glob], for the three patterns of the check *)

Module Glob.

(** [glob._ishidden]. *)
Definition is_hidden (name : string) : bool := PyStr.startswith "." name.

(** An entry directly in the mount point. *)
Definition in_root (p : string) : bool := negb (PyStr.contains "/" p).

(** [*.desktop] in the mount point: hidden names are left out. *)
Definition match_desktop (p : string) : bool :=
  in_root p && negb (is_hidden p) && PyStr.endswith ".desktop" p.

Definition glob_desktop (m : MountView) : list string :=
  filter match_desktop (map f_path m).

(** [glob.escape(name) + ".*"] in the mount point: the escaped name is
    matched literally; hidden names are left out unless the pattern
    itself starts with a dot, which it does when [name + "."] does. *)
Definition match_root_icon (name p : string) : bool :=
  in_root p && (is_hidden (name ++ ".")%string || negb (is_hidden p))
  && PyStr.startswith (name ++ ".")%string p.

Definition glob_root_icon (m : MountView) (name : string) : list string :=
  filter (match_root_icon name) (map f_path m).

(** [usr/share/icons/**/*.*] with [recursive=True]: at any depth, but no
    component may be hidden, and the last one must contain a dot. *)
Definition match_icons (p : string) : bool :=
  match PyStr.strip_prefix "usr/share/icons/" p with
  | Some r =>
      let comps := PyStr.split "/" r in
      forallb (fun c => negb (is_hidden c)) comps
      && PyStr.contains "." (last comps EmptyString)
  | None => false
  end.

Definition glob_icons (m : MountView) : list string :=
  filter match_icons (map f_path m).

End Glob.

(** ** Results and generators *)

(** [appimagelint.models.TestResult(success, id, message)]. *)
Record TestResult : Type := mkTestResult {
  success : bool;
  test_id : string;
  message : string
}.

(** The exceptions of a run: the unbound local variable, and whatever
    [open] or [read] raises for the file at [path] ([FileNotFoundError],
    [IsADirectoryError], [UnicodeDecodeError], ...). *)
Inductive exn : Type :=
| UnboundLocalError (name : string)
| OpenReadError (path : string).

(** A run of a generator of [TestResult]s: what it yielded, and how it
    ended. *)
Definition Gen (A : Type) : Type := list TestResult * (exn + A).

Definition ret {A} (a : A) : Gen A := ([], inr a).

Definition bind {A B} (c : Gen A) (k : A -> Gen B) : Gen B :=
  match c with
  | (rs, inl e) => (rs, inl e)
  | (rs, inr a) => let (rs', r) := k a in (rs ++ rs', r)
  end.

Definition yield (t : TestResult) : Gen unit := ([t], inr tt).

(** A computation that yields nothing. *)
Definition lift {A} (c : exn + A) : Gen A := ([], c).

Notation "x <- c ;; k" := (bind c (fun x => k))
  (at level 61, c at next level, right associativity).
Notation "c ;; k" := (bind c (fun _ => k))
  (at level 61, right associativity).

Definition yielded {A} (g : Gen A) : list TestResult := fst g.
Definition raised {A} (g : Gen A) : option exn :=
  match snd g with inl e => Some e | inr _ => None end.

(** ** [IconsCheck] *)

Module IconsCheck.

Definition _VALID_RESOLUTIONS : list Z :=
  [8; 16; 32; 48; 56; 64; 128; 192; 256; 384; 512].

Definition known_image_exts : list string := ["png"; "xpm"; "svg"; "jpg"].

(** [x in t] for a tuple of integers, and of strings. *)
Definition int_in (x : Z) (t : list Z) : bool := existsb (Z.eqb x) t.
Definition str_in (x : string) (t : list string) : bool :=
  existsb (String.eqb x) t.

(** The bare [except] turns every failure of [Image.open] into [None]. *)
Definition _get_icon_res (m : MountView) (icon_path : string)
  : option (Z * Z) :=
  match Image_open m icon_path with
  | Opened size => Some size
  | OpenRaises => None
  end.

Definition _check_icon_for_valid_resolution (m : MountView)
    (icon_path : string) : bool :=
  match _get_icon_res m icon_path with
  | None => false
  | Some res =>
      int_in (fst res) _VALID_RESOLUTIONS
      && int_in (snd res) _VALID_RESOLUTIONS
  end.

(** [[int(i) for i in l]]: [None] when one [int] raises. *)
Fixpoint ints (l : list string) : option (list Z) :=
  match l with
  | [] => Some []
  | i :: l' =>
      match PyStr.int i with
      | Some n => option_map (cons n) (ints l')
      | None => None
      end
  end.

(** [tuple([int(i) for i in s.split("x")])]. *)
Definition extract_res_from_path_component (s : string) : option (list Z) :=
  ints (PyStr.split "x" s).

(** The first desktop file's [Icon=] value. The file is opened and read
    outside any [try]: what [open] or [read] raises leaves the run. *)
Definition main_icon_name (m : MountView) : exn + option string :=
  match Glob.glob_desktop m with
  | [] => inr None
  | desktop_file :: _ =>
      match open_read m desktop_file with
      | Some desktop_file_contents =>
          inr (Re.search_Icon desktop_file_contents)
      | None => inl (OpenReadError desktop_file)
      end
  end.

(** Lines 63 to 95: the value of [root_icon_valid] at the first
    [yield]. The loop over the candidates computes [valid] and drops
    it: [main_icon_check_results] is what it was before the loop. *)
Definition root_icon_valid (m : MountView) (main_icon_name : option string)
  : bool :=
  match main_icon_name with
  | None => false
  | Some name =>
      if PyStr.contains "/" name then false
      else
        match Glob.glob_root_icon m name with
        | [] => false
        | appdir_root_icons =>
            let appdir_root_icons :=
              filter
                (fun i => str_in (PyStr.lstrip "." (snd (OsPath.splitext i)))
                                 known_image_exts)
                appdir_root_icons in
            let main_icon_check_results :=
              fold_left
                (fun (results : list bool) icon =>
                   let valid := _check_icon_for_valid_resolution m icon in
                   results)
                appdir_root_icons [] in
            forallb (fun b => b) main_icon_check_results
        end
  end.

(** The local variables the loop over [other_icons] carries from one
    file to the next: [rel_path] is unbound until a file with the
    icon's name has been processed. *)
Record loop_state : Type := mkState {
  other_icons_checks_success : bool;
  rel_path : option string
}.

(** [bool(path_res)]: [None] and the empty tuple are false. *)
Definition truthy (path_res : option (list Z)) : bool :=
  match path_res with
  | Some (_ :: _) => true
  | _ => false
  end.

(** The loop of lines 157 to 163: the first component that can be
    read as a resolution, else [path_res] as it was. *)
Fixpoint guess (split_path : list string) (path_res : option (list Z))
  : option (list Z) :=
  match split_path with
  | [] => path_res
  | comp :: rest =>
      match extract_res_from_path_component comp with
      | Some r => Some r
      | None => guess rest path_res
      end
  end.

(** [actual_res != path_res]: [actual_res] is a pair or [None]. *)
Definition res_differ (actual_res : option (Z * Z))
    (path_res : option (list Z)) : bool :=
  match actual_res, path_res with
  | Some (w, h), Some [a; b] => negb ((w =? a) && (h =? b))
  | _, _ => true
  end.

Definition name_differs (stem : string) (main_icon_name : option string)
  : bool :=
  match main_icon_name with
  | Some n => negb (String.eqb stem n)
  | None => true
  end.

(** Lines 138 to 149: the resolution at its expected place in
    [<theme>/<res>/apps/<name>.<ext>], [None] when the path has another
    shape or the component cannot be read. *)
Definition expected_path_res (split_path : list string)
  : option (list Z) :=
  if negb (length split_path =? 4)%nat
     || negb (String.eqb (nth 2 split_path EmptyString) "apps")
  then None
  else extract_res_from_path_component (nth 1 split_path EmptyString).

(** [path_res] at line 165, after the guess of lines 151 to 163. *)
Definition recovered_path_res (split_path : list string)
  : option (list Z) :=
  let path_res := expected_path_res split_path in
  if negb (truthy path_res) then guess split_path path_res else path_res.

(** The body of the loop over [other_icons], lines 112 to 176. *)
Definition other_icon (m : MountView) (main_icon_name : option string)
    (st : loop_state) (abs_path : string) : exn + loop_state :=
  let filename := OsPath.basename abs_path in
  let split_fname := OsPath.splitext filename in
  if name_differs (fst split_fname) main_icon_name then
    (* the warning's argument is [rel_path] *)
    match rel_path st with
    | Some _ => inr st
    | None => inl (UnboundLocalError "rel_path")
    end
  else
    (* an extension outside [known_image_exts] is logged, nothing more *)
    let ok := other_icons_checks_success st in
    let ok :=
      if negb (_check_icon_for_valid_resolution m abs_path) then false
      else ok in
    let rel := OsPath.relpath abs_path "usr/share/icons" in
    let split_path := PyStr.split "/" rel in
    let ok :=
      if negb (truthy (expected_path_res split_path)) then false else ok in
    let path_res := recovered_path_res split_path in
    let ok :=
      if negb (truthy path_res) then false
      else
        let actual_res := _get_icon_res m abs_path in
        if res_differ actual_res path_res then false else ok in
    inr (mkState ok (Some rel)).

(** [for abs_path in other_icons: ...]. *)
Fixpoint other_icons_loop (m : MountView) (main_icon_name : option string)
    (other_icons : list string) (st : loop_state) : exn + loop_state :=
  match other_icons with
  | [] => inr st
  | abs_path :: rest =>
      match other_icon m main_icon_name st abs_path with
      | inr st' => other_icons_loop m main_icon_name rest st'
      | inl e => inl e
      end
  end.

(** The three results of the check. *)
Definition valid_appdir_root_icon (ok : bool) : TestResult :=
  mkTestResult ok "icons.valid_appdir_root_icon" "Valid icon in AppDir root".
Definition valid_dotdiricon (ok : bool) : TestResult :=
  mkTestResult ok "icons.valid_dotdiricon" "Valid icon file in .DirIcon".
Definition valid_other_icons (ok : bool) : TestResult :=
  mkTestResult ok "icons.valid_other_icons" "Other integration icons valid".

Definition run (m : MountView) : Gen unit :=
  name <- lift (main_icon_name m) ;;
  yield (valid_appdir_root_icon (root_icon_valid m name)) ;;
  let dotdiricon_valid := _check_icon_for_valid_resolution m ".DirIcon" in
  yield (valid_dotdiricon dotdiricon_valid) ;;
  st <- lift (other_icons_loop m name (Glob.glob_icons m)
                (mkState true None)) ;;
  yield (valid_other_icons (other_icons_checks_success st)).

End IconsCheck.

(** ** Line-oriented readings of the desktop file *)

Module DesktopEntry.

(** The first value [f] finds, going through [l] in order. *)
Fixpoint first_some {A B} (f : A -> option B) (l : list A) : option B :=
  match l with
  | [] => None
  | a :: l' =>
      match f a with
      | Some b => Some b
      | None => first_some f l'
      end
  end.

Definition lines (s : string) : list string := PyStr.split PyStr.LF s.

(** The specification's reading: split the text into lines, match the
    first line beginning with [Icon=], take the remainder as the value. *)
Definition icon_of_first_line_beginning (s : string) : option string :=
  first_some (PyStr.strip_prefix "Icon=") (lines s).

(** What follows the first [Icon=] of a line, wherever it stands. *)
Fixpoint after_Icon (l : string) : option string :=
  match PyStr.strip_prefix "Icon=" l with
  | Some r => Some r
  | None =>
      match l with
      | EmptyString => None
      | String _ l' => after_Icon l'
      end
  end.

(** The value a line supplies: what follows its first [Icon=], when
    that is not empty. *)
Definition icon_of_line (l : string) : option string :=
  match after_Icon l with
  | Some (String c r) => Some (String c r)
  | _ => None
  end.

(** The value of the first line that supplies one. *)
Definition icon_of_first_line_containing (s : string) : option string :=
  first_some icon_of_line (lines s).

End DesktopEntry.

(** ** Example bundles *)

Module Bundles.

Definition text (ls : list string) : string :=
  fold_right (fun l s => (l ++ String PyStr.LF s)%string) EmptyString ls.

Definition desktop (icon_line : string) : File :=
  mkFile "app.desktop"
    (Some (text ["[Desktop Entry]"; "Name=App"; icon_line; "Exec=app"]))
    OpenRaises.

(** A desktop file with an older icon name left in a comment. *)
Definition commented_icon : string :=
  text ["[Desktop Entry]"; "Name=App"; "#Icon=old"; "Icon=foo"; "Exec=app"].

(** A desktop file with a vendor key that ends in [Icon]. *)
Definition vendor_icon_key : string :=
  text ["[Desktop Entry]"; "X-Window-Icon=bar"; "Icon=foo"; "Exec=app"].

Definition image (p : string) (w h : Z) : File :=
  mkFile p None (Opened (w, h)).

Definition theme_foo : string :=
  "usr/share/icons/hicolor/48x48/apps/foo.png".

(** A root icon of 100x100 pixels. *)
Definition bad_root_icon : MountView :=
  [desktop "Icon=foo"; image "foo.png" 100 100; image ".DirIcon" 128 128].

(** A theme that holds an unrelated icon, listed before the main one. *)
Definition unrelated_theme_icon : MountView :=
  [desktop "Icon=foo"; image "foo.png" 128 128; image ".DirIcon" 128 128;
   image "usr/share/icons/hicolor/48x48/apps/bar.png" 48 48;
   image theme_foo 48 48].

(** A theme whose only file is another application's icon. *)
Definition only_unrelated_icon : MountView :=
  [desktop "Icon=foo"; image "foo.png" 128 128; image ".DirIcon" 128 128;
   image "usr/share/icons/hicolor/48x48/apps/bar.png" 48 48].

(** One theme file at the conventional place, of the given size. *)
Definition theme_icon (w h : Z) : MountView :=
  [desktop "Icon=foo"; image "foo.png" 128 128; image ".DirIcon" 128 128;
   image theme_foo w h].

(** A theme file named after the icon, without extension, 100x100. *)
Definition no_extension : MountView :=
  [desktop "Icon=foo"; image "foo.png" 128 128; image ".DirIcon" 128 128;
   image "usr/share/icons/hicolor/48x48/apps/foo" 100 100].

(** A hidden theme file [.foo.png] of 100x100 pixels, with [Icon=.foo]. *)
Definition hidden_icon : MountView :=
  [desktop "Icon=.foo"; image ".DirIcon" 128 128;
   image "usr/share/icons/hicolor/48x48/apps/.foo.png" 100 100].

(** A theme directory named by a bare integer, the icon of that size. *)
Definition bare_integer_directory : MountView :=
  [desktop "Icon=foo"; image "foo.png" 128 128; image ".DirIcon" 128 128;
   image "usr/share/icons/hicolor/512/apps/foo.png" 512 512].

(** No [.DirIcon] at all. *)
Definition no_diricon : MountView :=
  [desktop "Icon=foo"; image "foo.png" 128 128].

(** [Icon=foo/bar], with files that could pass for the icon. *)
Definition icon_is_a_path : MountView :=
  [desktop "Icon=foo/bar"; image "foo.png" 128 128; image "bar.png" 128 128;
   image "foo/bar.png" 128 128; image ".DirIcon" 128 128].

End Bundles.

(** ** What a theme file must satisfy *)

Module Theme.

Import IconsCheck.

(** The part of a file's name that the loop compares with the icon's
    name: [op.splitext(op.basename(abs_path))[0]]. *)
Definition stem (abs_path : string) : string :=
  fst (OsPath.splitext (OsPath.basename abs_path)).

(** A file at [<theme>/<WxH>/apps/<file>] below [usr/share/icons] whose
    decoded resolution is the one of its directory, and a valid one. *)
Definition well_placed (m : MountView) (abs_path : string) : Prop :=
  exists theme res file w h,
    PyStr.split "/" (OsPath.relpath abs_path "usr/share/icons")
    = [theme; res; "apps"; file]
    /\ extract_res_from_path_component res = Some [w; h]
    /\ _get_icon_res m abs_path = Some (w, h)
    /\ In w _VALID_RESOLUTIONS /\ In h _VALID_RESOLUTIONS.

(** [s.count(c)] for a one-character string. *)
Fixpoint count (c : ascii) (s : string) : nat :=
  match s with
  | EmptyString => O
  | String b s' => ((if Ascii.eqb b c then 1 else 0) + count c s')%nat
  end.

End Theme.

(** ** More example bundles *)

Module Examples.

(** No desktop file, and a theme with the icon at its place. *)
Definition no_desktop_file : MountView :=
  [Bundles.image ".DirIcon" 128 128; Bundles.image Bundles.theme_foo 48 48].

(** No desktop file and no theme. *)
Definition bare : MountView := [Bundles.image ".DirIcon" 128 128].

(** A desktop file without [Icon] key. *)
Definition no_icon_key : MountView :=
  [mkFile "app.desktop"
     (Some (Bundles.text ["[Desktop Entry]"; "Name=App"])) OpenRaises;
   Bundles.image ".DirIcon" 128 128].

(** The theme's icon one directory too high: [apps] is missing. *)
Definition misplaced_theme_icon : MountView :=
  [Bundles.desktop "Icon=foo"; Bundles.image "foo.png" 128 128;
   Bundles.image ".DirIcon" 128 128;
   Bundles.image "usr/share/icons/hicolor/48x48/foo.png" 48 48].

(** The only file named after the icon is a text file. *)
Definition only_text_candidate : MountView :=
  [Bundles.desktop "Icon=foo"; mkFile "foo.txt" (Some "notes") OpenRaises;
   Bundles.image ".DirIcon" 128 128].

(** A desktop file that cannot be read as text, and a valid [.DirIcon]. *)
Definition unreadable_desktop : MountView :=
  [mkFile "app.desktop" None OpenRaises; Bundles.image ".DirIcon" 128 128].

(** A desktop file with an older icon name left in a comment, and the
    icon [foo.png] it names. *)
Definition commented_icon_bundle : MountView :=
  [mkFile "app.desktop" (Some Bundles.commented_icon) OpenRaises;
   Bundles.image "foo.png" 128 128; Bundles.image ".DirIcon" 128 128].

End Examples.

(** ** The command line ([appimagelint/cli.py]) *)

Module Cli.

(** How the generator of a check ends, as [cli.run] sees it: it returns,
    it is stopped by [KeyboardInterrupt], or it raises something else. *)
Inductive ending : Type :=
| Returned
| Interrupted
| Failed (e : exn).

(** A check's run: what it yielded, and how it ended. *)
Definition CheckRun : Type := (list TestResult * ending)%type.

(** The classes of the list [GlibcABICheck, GlibcxxABICheck, IconsCheck]. *)
Inductive check_cls : Type := GlibcABI | GlibcxxABI | Icons.

Definition check_classes : list check_cls := [GlibcABI; GlibcxxABI; Icons].

(** What lies outside the two files: the mount of the AppImage at a path,
    and the runs of the two ABI checks on it. *)
Record Env : Type := mkEnv {
  mount : string -> MountView;
  glibc_abi : string -> CheckRun;
  glibcxx_abi : string -> CheckRun
}.

Definition icons_run (m : MountView) : CheckRun :=
  (yielded (IconsCheck.run m),
   match raised (IconsCheck.run m) with
   | Some e => Failed e
   | None => Returned
   end).

(** [check_cls(appimage).run()]. *)
Definition check_run (env : Env) (cls : check_cls) (path : string)
  : CheckRun :=
  match cls with
  | GlibcABI => glibc_abi env path
  | GlibcxxABI => glibcxx_abi env path
  | Icons => icons_run (mount env path)
  end.

(** [d[k] = v] on a dict: in place when the key is there, at the end
    otherwise. *)
Fixpoint dict_set {V : Type} (k : string) (v : V) (d : list (string * V))
  : list (string * V) :=
  match d with
  | [] => [(k, v)]
  | (k', v') :: d' =>
      if String.eqb k' k then (k, v) :: d' else (k', v') :: dict_set k v d'
  end.

Fixpoint dict_get {V : Type} (k : string) (d : list (string * V))
  : option V :=
  match d with
  | [] => None
  | (k', v') :: d' => if String.eqb k' k then Some v' else dict_get k d'
  end.

(** [results[path]]: the results of each check, in the order of the
    checks. *)
Definition PathResults : Type := list (check_cls * list TestResult).

(** A line of the log: a result, with the path and the check it is of. *)
Definition LogLine : Type := (string * check_cls * TestResult)%type.

Definition log_lines (path : string) (cls : check_cls)
    (rs : list TestResult) : list LogLine :=
  map (fun r => (path, cls, r)) rs.

(** The loop over the checks of one path: each result is appended to
    [results[path][check]] and logged as it is yielded. *)
Fixpoint run_checks (env : Env) (path : string) (classes : list check_cls)
    (per : PathResults) (log : list LogLine)
  : PathResults * list LogLine * ending :=
  match classes with
  | [] => (per, log, Returned)
  | cls :: rest =>
      let (rs, e) := check_run env cls path in
      let per' := per ++ [(cls, rs)] in
      let log' := log ++ log_lines path cls rs in
      match e with
      | Returned => run_checks env path rest per' log'
      | _ => (per', log', e)
      end
  end.

Record State : Type := mkSt {
  results : list (string * PathResults);
  logged : list LogLine
}.

(** The loop over [args.path]. *)
Fixpoint run_paths (env : Env) (paths : list string) (st : State)
  : State * ending :=
  match paths with
  | [] => (st, Returned)
  | path :: rest =>
      let '(per, log, e) :=
        run_checks env path check_classes [] (logged st) in
      let st' := mkSt (dict_set path per (results st)) log in
      match e with
      | Returned => run_paths env rest st'
      | _ => (st', e)
      end
  end.

(** How [cli.run] ends: it returns, it calls [sys.exit], or the
    exception of a check leaves it. *)
Inductive exit : Type :=
| Returns
| SysExit (code : Z)
| Propagates (e : exn).

Record Outcome : Type := mkOutcome {
  out_log : list LogLine;
  out_report : option (string * list (string * PathResults));
  out_exit : exit
}.

(** [bool(args.json_report)]. *)
Definition report_wanted (json_report : option string) : option string :=
  match json_report with
  | Some (String c f) => Some (String c f)
  | _ => None
  end.

(** [run()], from line 108 on: [paths] is [args.path], and the report is
    [JSONReport(results)] written to [args.json_report]. *)
Definition run (env : Env) (paths : list string)
    (json_report : option string) : Outcome :=
  let (st, e) := run_paths env paths (mkSt [] []) in
  match e with
  | Returned =>
      mkOutcome (logged st)
        (option_map (fun f => (f, results st)) (report_wanted json_report))
        Returns
  | Interrupted => mkOutcome (logged st) None (SysExit 2)
  | Failed x => mkOutcome (logged st) None (Propagates x)
  end.

(** The lines a path adds to the log when all its checks return. *)
Definition path_log (env : Env) (path : string) : list LogLine :=
  flat_map (fun cls => log_lines path cls (fst (check_run env cls path)))
    check_classes.

(** [results[path]] when all the checks of the path return. *)
Definition path_results (env : Env) (path : string) : PathResults :=
  map (fun cls => (cls, fst (check_run env cls path))) check_classes.

(** An environment in which the ABI checks yield nothing and every path
    mounts the same bundle. *)
Definition quiet_env (m : MountView) : Env :=
  mkEnv (fun _ => m) (fun _ => ([], Returned)) (fun _ => ([], Returned)).

End Cli.

(** * Properties *)

Import IconsCheck.

(** ** Lookups and the shape of a run *)

Lemma int_in_In (x : Z) (t : list Z) : int_in x t = true <-> In x t.
Proof.
  unfold int_in. rewrite existsb_exists. split.
  - intros [y [Hy E]]. apply Z.eqb_eq in E. now subst.
  - intros H. exists x. split; [assumption | apply Z.eqb_refl].
Qed.

Lemma int_in_not_In (x : Z) (t : list Z) : int_in x t = false <-> ~ In x t.
Proof.
  rewrite <- int_in_In. destruct (int_in x t); split; congruence.
Qed.

Lemma lookup_listed (m : MountView) (p : string) :
  In p (map f_path m) -> exists f, lookup m p = Some f.
Proof.
  unfold lookup. induction m as [|f m IH]; simpl; [tauto|].
  intros [E | H].
  - exists f. now rewrite E, String.eqb_refl.
  - destruct (String.eqb (f_path f) p); [now exists f | now apply IH].
Qed.

(** Extracting the icon's name raises only what reading the first
    desktop file raises. *)
Lemma main_icon_name_raises (m : MountView) (e : exn) :
  main_icon_name m = inl e ->
  exists p ps,
    Glob.glob_desktop m = p :: ps /\ open_read m p = None
    /\ e = OpenReadError p.
Proof.
  unfold main_icon_name.
  destruct (Glob.glob_desktop m) as [|p ps]; [discriminate|].
  destruct (open_read m p) eqn:R; [discriminate|].
  intros H. injection H as <-. now exists p, ps.
Qed.

(** A run that cannot read the desktop file yields nothing. *)
Lemma run_unreadable (m : MountView) (e : exn) :
  main_icon_name m = inl e -> run m = ([], inl e).
Proof. intros H. unfold run, bind, lift. now rewrite H. Qed.

(** A run yields the first two results, then goes through the theme. *)
Lemma run_shape (m : MountView) (name : option string) :
  main_icon_name m = inr name ->
  run m =
    let r1 := valid_appdir_root_icon (root_icon_valid m name) in
    let r2 :=
      valid_dotdiricon (_check_icon_for_valid_resolution m ".DirIcon") in
    match other_icons_loop m name (Glob.glob_icons m) (mkState true None) with
    | inr st =>
        ([r1; r2; valid_other_icons (other_icons_checks_success st)], inr tt)
    | inl e => ([r1; r2], inl e)
    end.
Proof.
  intros H. unfold run, bind, lift, yield. rewrite H. simpl.
  destruct (other_icons_loop m name (Glob.glob_icons m) (mkState true None));
    reflexivity.
Qed.

(** ** The resolution check *)

(** C7. For a file that decodes to [(w, h)], the resolution check returns
    true when both [w] and [h] are among 8, 16, 32, 48, 56, 64, 128, 192,
    256, 384 and 512, and false when either of them is not. *)
Theorem check_icon_for_valid_resolution_spec
    (m : MountView) (icon_path : string) (w h : Z) :
  _get_icon_res m icon_path = Some (w, h) ->
  (In w _VALID_RESOLUTIONS /\ In h _VALID_RESOLUTIONS ->
   _check_icon_for_valid_resolution m icon_path = true)
  /\ (~ In w _VALID_RESOLUTIONS \/ ~ In h _VALID_RESOLUTIONS ->
      _check_icon_for_valid_resolution m icon_path = false).
Proof.
  intros R. unfold _check_icon_for_valid_resolution. rewrite R.
  cbn [fst snd]. split.
  - intros [Hw Hh]. apply int_in_In in Hw, Hh. now rewrite Hw, Hh.
  - intros [Hw | Hh].
    + apply int_in_not_In in Hw. now rewrite Hw.
    + apply int_in_not_In in Hh. rewrite Hh. apply andb_false_r.
Qed.

Lemma check_icon_for_valid_resolution_spec_witness :
  _check_icon_for_valid_resolution (Bundles.theme_icon 48 64)
    Bundles.theme_foo = true
  /\ _check_icon_for_valid_resolution (Bundles.theme_icon 48 100)
       Bundles.theme_foo = false.
Proof.
  split.
  - apply (check_icon_for_valid_resolution_spec
             (Bundles.theme_icon 48 64) Bundles.theme_foo 48 64).
    + reflexivity.
    + split; simpl; tauto.
  - apply (check_icon_for_valid_resolution_spec
             (Bundles.theme_icon 48 100) Bundles.theme_foo 48 100).
    + reflexivity.
    + right. simpl. lia.
Defined.

(** ** [.DirIcon] *)

(** C8. When [.DirIcon] is missing from the bundle's root, or is there and
    cannot be decoded, the [.DirIcon] test gives false and, in a run that
    got past the reading of the desktop file, the second result is
    [icons.valid_dotdiricon] with failure. A decode failure of any file
    makes the resolution check return false: it is a value, the check
    does not raise. *)
Theorem dotdiricon_missing_or_undecodable (m : MountView)
    (name : option string) :
  main_icon_name m = inr name ->
  (lookup m ".DirIcon" = None
   \/ exists f, lookup m ".DirIcon" = Some f /\ f_image f = OpenRaises) ->
  nth_error (yielded (run m)) 1 = Some (valid_dotdiricon false)
  /\ forall m' p, Image_open m' p = OpenRaises ->
       _get_icon_res m' p = None
       /\ _check_icon_for_valid_resolution m' p = false.
Proof.
  intros Hn H.
  assert (forall m' p, Image_open m' p = OpenRaises ->
            _get_icon_res m' p = None
            /\ _check_icon_for_valid_resolution m' p = false) as Hdec.
  { intros m' p E. unfold _check_icon_for_valid_resolution, _get_icon_res.
    now rewrite E. }
  split; [|exact Hdec].
  assert (Image_open m ".DirIcon" = OpenRaises) as E.
  { unfold Image_open. destruct H as [H | [f [H Hf]]]; now rewrite H. }
  destruct (Hdec m ".DirIcon" E) as [_ C].
  rewrite (run_shape m name Hn). cbv zeta. rewrite C.
  destruct (other_icons_loop m name (Glob.glob_icons m) (mkState true None));
    reflexivity.
Qed.

Lemma dotdiricon_missing_or_undecodable_witness :
  nth_error (yielded (run Bundles.no_diricon)) 1
  = Some (valid_dotdiricon false).
Proof.
  apply (dotdiricon_missing_or_undecodable Bundles.no_diricon (Some "foo")).
  - reflexivity.
  - left. reflexivity.
Defined.

(** ** The root icon *)

(** C9. When the [Icon=] value read from the desktop file contains a [/],
    the first result is [icons.valid_appdir_root_icon] with failure,
    whatever files the bundle holds. *)
Theorem icon_name_with_separator (m : MountView) (name : string) :
  main_icon_name m = inr (Some name) ->
  PyStr.contains "/" name = true ->
  nth_error (yielded (run m)) 0 = Some (valid_appdir_root_icon false)
  /\ forall m', root_icon_valid m' (Some name) = false.
Proof.
  intros Hn Hs.
  assert (forall m', root_icon_valid m' (Some name) = false) as Hr.
  { intros m'. unfold root_icon_valid. now rewrite Hs. }
  split; [|exact Hr].
  rewrite (run_shape m _ Hn). cbv zeta. rewrite Hr.
  destruct (other_icons_loop m (Some name) (Glob.glob_icons m)
              (mkState true None)); reflexivity.
Qed.

Lemma icon_name_with_separator_witness :
  nth_error (yielded (run Bundles.icon_is_a_path)) 0
  = Some (valid_appdir_root_icon false).
Proof.
  apply (icon_name_with_separator Bundles.icon_is_a_path "foo/bar");
    reflexivity.
Defined.

Lemma check_results_dropped (m : MountView) (icons : list string)
    (results : list bool) :
  fold_left
    (fun (results : list bool) icon =>
       let valid := _check_icon_for_valid_resolution m icon in results)
    icons results = results.
Proof.
  revert results. induction icons as [|i icons IH]; intros results; simpl;
    [reflexivity | apply IH].
Qed.

(** What decides the root icon's result: the name and the presence of a
    file [<name>.*], nothing else. *)
Lemma root_icon_valid_char (m : MountView) (name : string) :
  root_icon_valid m (Some name)
  = negb (PyStr.contains "/" name)
    && match Glob.glob_root_icon m name with [] => false | _ => true end.
Proof.
  unfold root_icon_valid.
  destruct (PyStr.contains "/" name); [reflexivity|].
  destruct (Glob.glob_root_icon m name) as [|p ps]; [reflexivity|].
  now rewrite (check_results_dropped m).
Qed.

(** C1. In the bundle [Bundles.bad_root_icon] the only candidate for the
    root icon, [foo.png], is of 100x100 pixels and fails the resolution
    check; the first result is nevertheless success. The loop over the
    candidates drops each [valid], so that the result is that of
    [all([])]: it depends on the icon's name and on a candidate being
    there, for every bundle. *)
Theorem root_icon_bad_candidate_passes :
  Glob.glob_root_icon Bundles.bad_root_icon "foo" = ["foo.png"]
  /\ _check_icon_for_valid_resolution Bundles.bad_root_icon "foo.png" = false
  /\ nth_error (yielded (run Bundles.bad_root_icon)) 0
     = Some (valid_appdir_root_icon true)
  /\ forall m name,
       PyStr.contains "/" name = false ->
       Glob.glob_root_icon m name <> [] ->
       root_icon_valid m (Some name) = true.
Proof.
  split; [reflexivity|]. split; [reflexivity|]. split; [reflexivity|].
  intros m name Hs Hg. rewrite root_icon_valid_char, Hs.
  destruct (Glob.glob_root_icon m name); [congruence | reflexivity].
Qed.

(** ** The loop over the theme's files *)

Lemma other_icon_unrelated (m : MountView) (name : option string)
    (st : loop_state) (p : string) :
  name_differs (fst (OsPath.splitext (OsPath.basename p))) name = true ->
  other_icon m name st p
  = match rel_path st with
    | Some _ => inr st
    | None => inl (UnboundLocalError "rel_path")
    end.
Proof. intros H. unfold other_icon. now rewrite H. Qed.

Lemma other_icon_related (m : MountView) (name : option string)
    (st : loop_state) (p : string) :
  name_differs (fst (OsPath.splitext (OsPath.basename p))) name = false ->
  exists ok,
    other_icon m name st p
    = inr (mkState ok (Some (OsPath.relpath p "usr/share/icons")))
    /\ (ok = true ->
        other_icons_checks_success st = true
        /\ _check_icon_for_valid_resolution m p = true
        /\ res_differ (_get_icon_res m p)
             (recovered_path_res
                (PyStr.split "/" (OsPath.relpath p "usr/share/icons")))
           = false).
Proof.
  intros H. unfold other_icon. rewrite H. eexists. split; [reflexivity|].
  destruct (_check_icon_for_valid_resolution m p); simpl.
  - destruct (truthy (expected_path_res _)); simpl;
      destruct (truthy (recovered_path_res _)); simpl;
      destruct (res_differ _ _); simpl; intros E; try discriminate; auto.
  - destruct (truthy (expected_path_res _)); simpl;
      destruct (truthy (recovered_path_res _)); simpl;
      destruct (res_differ _ _); simpl; intros E; discriminate.
Qed.

(** The loop raises nothing but the unbound [rel_path]. *)
Lemma other_icon_raises (m : MountView) (name : option string)
    (st : loop_state) (p : string) (e : exn) :
  other_icon m name st p = inl e -> e = UnboundLocalError "rel_path".
Proof.
  unfold other_icon.
  destruct (name_differs _ name); [|discriminate].
  destruct (rel_path st); [discriminate|]. congruence.
Qed.

Lemma other_icons_loop_raises (m : MountView) (name : option string)
    (l : list string) (st : loop_state) (e : exn) :
  other_icons_loop m name l st = inl e -> e = UnboundLocalError "rel_path".
Proof.
  revert st. induction l as [|p l IH]; intros st; simpl; [discriminate|].
  destruct (other_icon m name st p) as [e'|st'] eqn:E.
  - intros H. injection H as <-. exact (other_icon_raises _ _ _ _ _ E).
  - apply IH.
Qed.

(** Once false, the flag stays false. *)
Lemma other_icon_sticky (m : MountView) (name : option string)
    (st st' : loop_state) (p : string) :
  other_icon m name st p = inr st' ->
  other_icons_checks_success st = false ->
  other_icons_checks_success st' = false.
Proof.
  intros H F.
  destruct (name_differs (fst (OsPath.splitext (OsPath.basename p))) name)
    eqn:D.
  - rewrite (other_icon_unrelated _ _ _ _ D) in H.
    destruct (rel_path st); [|discriminate]. now injection H as <-.
  - destruct (other_icon_related m name st p D) as [ok [E Hok]].
    rewrite E in H. injection H as <-. simpl.
    destruct ok; [|reflexivity]. destruct (Hok eq_refl) as [T _]. congruence.
Qed.

Lemma other_icons_loop_sticky (m : MountView) (name : option string)
    (l : list string) (st st' : loop_state) :
  other_icons_loop m name l st = inr st' ->
  other_icons_checks_success st = false ->
  other_icons_checks_success st' = false.
Proof.
  revert st. induction l as [|p l IH]; intros st; simpl.
  - intros H. now injection H as <-.
  - destruct (other_icon m name st p) as [e|st1] eqn:E; [discriminate|].
    intros H F. apply (IH st1 H). exact (other_icon_sticky _ _ _ _ _ E F).
Qed.

(** A file that turns the flag off turns the loop's result off. *)
Lemma other_icons_loop_flips (m : MountView) (name : option string)
    (l : list string) (p : string) (st st' : loop_state) :
  In p l ->
  (forall s s', other_icon m name s p = inr s' ->
                other_icons_checks_success s' = false) ->
  other_icons_loop m name l st = inr st' ->
  other_icons_checks_success st' = false.
Proof.
  intros Hin Hp. revert st. induction l as [|q l IH]; intros st; simpl;
    [contradiction|].
  destruct (other_icon m name st q) as [e|st1] eqn:E; [discriminate|].
  destruct Hin as [-> | Hin].
  - intros H. apply (other_icons_loop_sticky _ _ _ _ _ H). exact (Hp _ _ E).
  - apply (IH Hin).
Qed.

(** C2. In the bundle [Bundles.only_unrelated_icon] the theme holds one
    file, [bar.png], and the icon is [foo]: the file is not skipped, the
    loop raises [UnboundLocalError] for [rel_path], which the warning
    reads before any file has bound it, and the run ends with that error.
    In every bundle a file of another name raises so when no file of the
    icon's name came before it, and is skipped otherwise. *)
Theorem unrelated_theme_file_raises :
  other_icon Bundles.only_unrelated_icon (Some "foo") (mkState true None)
    "usr/share/icons/hicolor/48x48/apps/bar.png"
  = inl (UnboundLocalError "rel_path")
  /\ raised (run Bundles.only_unrelated_icon)
     = Some (UnboundLocalError "rel_path")
  /\ forall m name st p,
       name_differs (fst (OsPath.splitext (OsPath.basename p))) name = true ->
       (rel_path st = None ->
        other_icon m name st p = inl (UnboundLocalError "rel_path"))
       /\ (rel_path st <> None -> other_icon m name st p = inr st).
Proof.
  split; [reflexivity|]. split; [reflexivity|].
  intros m name st p H. rewrite (other_icon_unrelated _ _ _ _ H). split.
  - intros R. now rewrite R.
  - intros R. destruct (rel_path st); [reflexivity | congruence].
Qed.

(** C3. In the bundle [Bundles.unrelated_theme_icon], whose theme lists
    another application's icon before the main one, a run yields two
    results and raises: [icons.valid_other_icons] is missing. A run that
    got past the reading of the desktop file yields either the three
    results in order and returns, or the first two and raises
    [UnboundLocalError] for [rel_path]; a run in which [open] or [read]
    raises for the desktop file yields nothing and ends with that
    exception. *)
Theorem run_may_yield_two_results :
  run Bundles.unrelated_theme_icon
  = ([valid_appdir_root_icon true; valid_dotdiricon true],
     inl (UnboundLocalError "rel_path"))
  /\ (forall m name,
        main_icon_name m = inr name ->
        (raised (run m) = None
         /\ map test_id (yielded (run m))
            = ["icons.valid_appdir_root_icon"; "icons.valid_dotdiricon";
               "icons.valid_other_icons"])
        \/ (raised (run m) = Some (UnboundLocalError "rel_path")
            /\ map test_id (yielded (run m))
               = ["icons.valid_appdir_root_icon"; "icons.valid_dotdiricon"]))
  /\ (forall m e, main_icon_name m = inl e -> run m = ([], inl e)).
Proof.
  split; [reflexivity|]. split; [|exact run_unreadable].
  intros m name Hn.
  rewrite (run_shape m name Hn). cbv zeta.
  destruct (other_icons_loop m name (Glob.glob_icons m) (mkState true None))
    as [e|st] eqn:E.
  - right. rewrite (other_icons_loop_raises _ _ _ _ _ E). now split.
  - left. now split.
Qed.

(** ** The resolution in the path *)

Lemma other_icon_mismatch (m : MountView) (name : option string)
    (p : string) (s s' : loop_state) :
  name_differs (fst (OsPath.splitext (OsPath.basename p))) name = false ->
  res_differ (_get_icon_res m p)
    (recovered_path_res
       (PyStr.split "/" (OsPath.relpath p "usr/share/icons"))) = true ->
  other_icon m name s p = inr s' ->
  other_icons_checks_success s' = false.
Proof.
  intros D R H. destruct (other_icon_related m name s p D) as [ok [E Hok]].
  rewrite E in H. injection H as <-. simpl.
  destruct ok; [|reflexivity]. destruct (Hok eq_refl) as [_ [_ T]]. congruence.
Qed.

(** C6. For the theme file [usr/share/icons/hicolor/48x48/apps/foo.png]
    and the icon name [foo]: when the file decodes to 48x48 the loop's
    body leaves the flag as it was, and a bundle with this one theme file
    has [icons.valid_other_icons] success; when it decodes to 32x32 the
    body turns the flag off and the result is failure. For every bundle,
    a file of the icon's name whose decoded resolution differs from the
    one recovered from its path makes the result failure. *)
Theorem theme_icon_cross_check :
  (forall m st,
     _get_icon_res m Bundles.theme_foo = Some (48, 48) ->
     other_icon m (Some "foo") st Bundles.theme_foo
     = inr (mkState (other_icons_checks_success st)
              (Some "hicolor/48x48/apps/foo.png")))
  /\ (forall m st,
        _get_icon_res m Bundles.theme_foo = Some (32, 32) ->
        other_icon m (Some "foo") st Bundles.theme_foo
        = inr (mkState false (Some "hicolor/48x48/apps/foo.png")))
  /\ nth_error (yielded (run (Bundles.theme_icon 48 48))) 2
     = Some (valid_other_icons true)
  /\ nth_error (yielded (run (Bundles.theme_icon 32 32))) 2
     = Some (valid_other_icons false)
  /\ (forall m name p st,
        In p (Glob.glob_icons m) ->
        name_differs (fst (OsPath.splitext (OsPath.basename p))) name
        = false ->
        res_differ (_get_icon_res m p)
          (recovered_path_res
             (PyStr.split "/" (OsPath.relpath p "usr/share/icons"))) = true ->
        other_icons_loop m name (Glob.glob_icons m) (mkState true None)
        = inr st ->
        other_icons_checks_success st = false).
Proof.
  split; [|split; [|split; [|split]]]; try reflexivity.
  - intros m st R. unfold other_icon, _check_icon_for_valid_resolution.
    rewrite R. vm_compute. now destruct st as [[|] r].
  - intros m st R. unfold other_icon, _check_icon_for_valid_resolution.
    rewrite R. vm_compute. now destruct st as [[|] r].
  - intros m name p st Hin D R H.
    apply (other_icons_loop_flips m name _ p (mkState true None) st Hin);
      [|exact H].
    intros s s'. now apply other_icon_mismatch.
Qed.

Lemma ints_accepts (l : list string) :
  (exists r, ints l = Some r)
  <-> Forall (fun piece => PyStr.int piece <> None) l.
Proof.
  induction l as [|i l IH]; simpl.
  - split; [constructor | now exists []].
  - destruct (PyStr.int i) as [n|] eqn:E.
    + split.
      * intros [r Hr]. constructor; [congruence|]. apply IH.
        destruct (ints l) as [r'|]; [now exists r' | discriminate].
      * intros H. inversion H as [|? ? _ Hl]; subst.
        apply IH in Hl. destruct Hl as [r' Hr']. rewrite Hr'.
        now exists (n :: r').
    + split.
      * intros [r Hr]. discriminate.
      * intros H. inversion H; subst. congruence.
Qed.

Lemma ints_values (l : list string) (r : list Z) :
  ints l = Some r ->
  Forall2 (fun piece n => PyStr.int piece = Some n) l r.
Proof.
  revert r. induction l as [|i l IH]; simpl; intros r H.
  - injection H as <-. constructor.
  - destruct (PyStr.int i) as [n|] eqn:E; [|discriminate].
    destruct (ints l) as [r'|]; [|discriminate].
    injection H as <-. constructor; [assumption | now apply IH].
Qed.

Lemma split_without_separator (c : ascii) (s : string) :
  PyStr.contains c s = false -> PyStr.split c s = [s].
Proof.
  induction s as [|b s IH]; simpl; [reflexivity|].
  intros H. apply orb_false_iff in H. destruct H as [Hb Hs].
  rewrite Hb, (IH Hs). reflexivity.
Qed.

Lemma res_differ_not_pair (actual_res : option (Z * Z)) (r : list Z) :
  length r <> 2%nat -> res_differ actual_res (Some r) = true.
Proof.
  intros H. unfold res_differ. destruct actual_res as [[w h]|]; [|reflexivity].
  destruct r as [|a [|b [|c r]]]; simpl in H; try reflexivity. lia.
Qed.

(** C10. A path component is read as a resolution exactly when each of the
    pieces between its [x] is accepted by [int], and the tuple holds one
    integer for each piece. A component without [x] that [int] accepts,
    such as [512], gives a tuple of one element. A recovered tuple that is
    not a pair differs from every decoded resolution: the file turns the
    flag off, as in the bundle [Bundles.bare_integer_directory]. *)
Theorem path_component_resolution :
  (forall s,
     (exists r, extract_res_from_path_component s = Some r)
     <-> Forall (fun piece => PyStr.int piece <> None) (PyStr.split "x" s))
  /\ (forall s r,
        extract_res_from_path_component s = Some r ->
        Forall2 (fun piece n => PyStr.int piece = Some n)
          (PyStr.split "x" s) r)
  /\ (forall s n,
        PyStr.contains "x" s = false -> PyStr.int s = Some n ->
        extract_res_from_path_component s = Some [n])
  /\ extract_res_from_path_component "512" = Some [512]
  /\ (forall actual_res r,
        length r <> 2%nat -> res_differ actual_res (Some r) = true)
  /\ (forall m name p s s' r,
        name_differs (fst (OsPath.splitext (OsPath.basename p))) name
        = false ->
        recovered_path_res
          (PyStr.split "/" (OsPath.relpath p "usr/share/icons")) = Some r ->
        length r <> 2%nat ->
        other_icon m name s p = inr s' ->
        other_icons_checks_success s' = false)
  /\ recovered_path_res ["hicolor"; "512"; "apps"; "foo.png"] = Some [512]
  /\ nth_error (yielded (run Bundles.bare_integer_directory)) 2
     = Some (valid_other_icons false).
Proof.
  split; [|split; [|split; [|split; [|split; [|split; [|split]]]]]];
    try reflexivity.
  - intros s. apply ints_accepts.
  - intros s r. apply ints_values.
  - intros s n Hx Hn. unfold extract_res_from_path_component.
    rewrite (split_without_separator _ _ Hx). simpl. now rewrite Hn.
  - apply res_differ_not_pair.
  - intros m name p s s' r D R L. apply (other_icon_mismatch m name p s s' D).
    rewrite R. now apply res_differ_not_pair.
Qed.

(** ** The icon's name *)

Lemma search_Icon_step (b : ascii) (s : string) :
  Re.search_Icon (String b s)
  = match Re.match_here (String b s) with
    | Some v => Some v
    | None => Re.search_Icon s
    end.
Proof. reflexivity. Qed.

Lemma after_Icon_step (b : ascii) (l : string) :
  DesktopEntry.after_Icon (String b l)
  = match PyStr.strip_prefix "Icon=" (String b l) with
    | Some r => Some r
    | None => DesktopEntry.after_Icon l
    end.
Proof. reflexivity. Qed.

(** The first line of a text is what the dot can match. *)
Lemma lines_head (s : string) :
  exists ls, DesktopEntry.lines s = Re.dot_plus s :: ls.
Proof.
  unfold DesktopEntry.lines. induction s as [|b s [ls IH]]; simpl.
  - now exists [].
  - destruct (Ascii.eqb b PyStr.LF); [now eexists|].
    rewrite IH. now exists ls.
Qed.

(** A prefix without newline is found in the text when it is found in
    the text's first line. *)
Lemma strip_prefix_dot_plus (p s : string) :
  PyStr.contains PyStr.LF p = false ->
  PyStr.strip_prefix p (Re.dot_plus s)
  = option_map Re.dot_plus (PyStr.strip_prefix p s).
Proof.
  revert s. induction p as [|a p IH]; intros s H; simpl; [reflexivity|].
  simpl in H. apply orb_false_iff in H. destruct H as [Ha Hp].
  destruct s as [|b s]; simpl; [reflexivity|].
  destruct (Ascii.eqb b PyStr.LF) eqn:Eb.
  - apply Ascii.eqb_eq in Eb. subst b. now rewrite Ha.
  - simpl. destruct (Ascii.eqb a b); [now apply IH | reflexivity].
Qed.

Lemma strip_prefix_app (p s r : string) :
  PyStr.strip_prefix p s = Some r -> s = (p ++ r)%string.
Proof.
  revert s. induction p as [|a p IH]; intros s; simpl.
  - congruence.
  - destruct s as [|b s]; [discriminate|].
    destruct (Ascii.eqb a b) eqn:E; [|discriminate].
    apply Ascii.eqb_eq in E. subst b. intros H. now rewrite (IH s H).
Qed.

(** The match at a position that is not a newline, read off the line. *)
Lemma match_here_line (b : ascii) (s : string) :
  Ascii.eqb b PyStr.LF = false ->
  Re.match_here (String b s)
  = match PyStr.strip_prefix "Icon=" (String b (Re.dot_plus s)) with
    | Some (String c r) => Some (String c r)
    | _ => None
    end.
Proof.
  intros Eb. unfold Re.match_here.
  replace (String b (Re.dot_plus s)) with (Re.dot_plus (String b s))
    by (simpl; now rewrite Eb).
  rewrite strip_prefix_dot_plus by reflexivity.
  destruct (PyStr.strip_prefix "Icon=" (String b s)); reflexivity.
Qed.

(** The search, read line by line: it gives what follows the first
    [Icon=] of the first line that holds [Icon=] and a character after
    it, wherever in the line [Icon=] stands. *)
Lemma search_Icon_line_oriented (s : string) :
  Re.search_Icon s = DesktopEntry.icon_of_first_line_containing s.
Proof.
  unfold DesktopEntry.icon_of_first_line_containing.
  induction s as [|b s IH]; [reflexivity|].
  rewrite search_Icon_step.
  destruct (lines_head s) as [ls Hs]. rewrite Hs in IH.
  unfold DesktopEntry.lines in *. simpl PyStr.split.
  destruct (Ascii.eqb b PyStr.LF) eqn:Eb.
  - apply Ascii.eqb_eq in Eb. subst b. rewrite Hs. exact IH.
  - rewrite Hs. rewrite (match_here_line b s Eb).
    cbn [DesktopEntry.first_some] in *.
    unfold DesktopEntry.icon_of_line at 1. rewrite after_Icon_step.
    destruct (PyStr.strip_prefix "Icon=" (String b (Re.dot_plus s)))
      as [[|c r]|] eqn:E.
    + apply strip_prefix_app in E. injection E as _ E.
      rewrite E in IH. exact IH.
    + reflexivity.
    + exact IH.
Qed.

(** C4. In [Examples.commented_icon_bundle] the desktop file holds the
    line [#Icon=old] before the line [Icon=foo]. The first line that
    begins with [Icon=] gives [foo]; the search, which is not anchored
    at the beginning of a line, reads [old] from the commented line. The
    icon [foo.png] is in the root and would be found under the name
    [foo], and the first result is failure. A key that ends in [Icon]
    supplies the value in the same way in [Bundles.vendor_icon_key]. *)
Theorem commented_icon_read_as_name :
  DesktopEntry.icon_of_first_line_beginning Bundles.commented_icon
  = Some "foo"
  /\ Re.search_Icon Bundles.commented_icon = Some "old"
  /\ main_icon_name Examples.commented_icon_bundle = inr (Some "old")
  /\ root_icon_valid Examples.commented_icon_bundle (Some "foo") = true
  /\ nth_error (yielded (run Examples.commented_icon_bundle)) 0
     = Some (valid_appdir_root_icon false)
  /\ DesktopEntry.icon_of_first_line_beginning Bundles.vendor_icon_key
     = Some "foo"
  /\ Re.search_Icon Bundles.vendor_icon_key = Some "bar".
Proof.
  split; [reflexivity|]. split; [reflexivity|].
  split; [reflexivity|]. split; [reflexivity|].
  split; [reflexivity|]. split; reflexivity.
Qed.

(** ** Which theme files are looked at *)

Lemma startswith_contains (c : ascii) (p s : string) :
  PyStr.startswith p s = true -> PyStr.contains c p = true ->
  PyStr.contains c s = true.
Proof.
  revert s. induction p as [|a p IH]; intros s; simpl; [discriminate|].
  destruct s as [|b s]; [discriminate|].
  intros H. apply andb_true_iff in H. destruct H as [E H].
  apply Ascii.eqb_eq in E. subst b. simpl.
  destruct (Ascii.eqb a c); [reflexivity|]. simpl. now apply IH.
Qed.

Lemma filter_without {A} (P : A -> bool) (l1 l2 : list A) (x : A) :
  P x = false -> filter P (l1 ++ x :: l2) = filter P (l1 ++ l2).
Proof.
  intros H. rewrite !filter_app. simpl. now rewrite H.
Qed.

Lemma lookup_without (m1 m2 : MountView) (e : File) (p : string) :
  p <> f_path e -> lookup (m1 ++ e :: m2) p = lookup (m1 ++ m2) p.
Proof.
  intros H. unfold lookup. induction m1 as [|f m1 IH]; simpl.
  - destruct (String.eqb_spec (f_path e) p); [congruence | reflexivity].
  - now rewrite IH.
Qed.

Section Unlisted.

(** An entry below [usr/share/icons] that the pattern does not match,
    anywhere in the mount. *)
Variables (m1 m2 : MountView) (e : File).
Hypothesis below : PyStr.startswith "usr/share/icons/" (f_path e) = true.
Hypothesis unmatched : Glob.match_icons (f_path e) = false.

Let with_e : MountView := m1 ++ e :: m2.
Let without_e : MountView := m1 ++ m2.

Lemma unlisted_not_in_root : Glob.in_root (f_path e) = false.
Proof.
  unfold Glob.in_root.
  now rewrite (startswith_contains "/" _ _ below eq_refl).
Qed.

Lemma unlisted_paths (P : string -> bool) :
  P (f_path e) = false ->
  filter P (map f_path with_e) = filter P (map f_path without_e).
Proof.
  intros H. unfold with_e, without_e. rewrite !map_app. simpl.
  now apply filter_without.
Qed.

Lemma unlisted_glob_desktop :
  Glob.glob_desktop with_e = Glob.glob_desktop without_e.
Proof.
  apply unlisted_paths. unfold Glob.match_desktop.
  now rewrite unlisted_not_in_root.
Qed.

Lemma unlisted_glob_root_icon (name : string) :
  Glob.glob_root_icon with_e name = Glob.glob_root_icon without_e name.
Proof.
  apply unlisted_paths. unfold Glob.match_root_icon.
  now rewrite unlisted_not_in_root.
Qed.

Lemma unlisted_glob_icons :
  Glob.glob_icons with_e = Glob.glob_icons without_e.
Proof. apply unlisted_paths. exact unmatched. Qed.

Lemma unlisted_lookup_root (p : string) :
  Glob.in_root p = true -> lookup with_e p = lookup without_e p.
Proof.
  intros H. apply lookup_without. intros ->.
  rewrite unlisted_not_in_root in H. discriminate.
Qed.

Lemma unlisted_lookup_matched (p : string) :
  Glob.match_icons p = true -> lookup with_e p = lookup without_e p.
Proof.
  intros H. apply lookup_without. intros ->.
  rewrite unmatched in H. discriminate.
Qed.

Lemma unlisted_check_root (p : string) :
  Glob.in_root p = true ->
  _check_icon_for_valid_resolution with_e p
  = _check_icon_for_valid_resolution without_e p.
Proof.
  intros H. unfold _check_icon_for_valid_resolution, _get_icon_res,
    Image_open.
  now rewrite (unlisted_lookup_root p H).
Qed.

Lemma unlisted_main_icon_name :
  main_icon_name with_e = main_icon_name without_e.
Proof.
  unfold main_icon_name. rewrite unlisted_glob_desktop.
  destruct (Glob.glob_desktop without_e) as [|p ps] eqn:G; [reflexivity|].
  assert (In p (Glob.glob_desktop without_e)) as Hin
    by (rewrite G; now left).
  apply filter_In in Hin. destruct Hin as [_ Hp].
  unfold Glob.match_desktop in Hp.
  apply andb_true_iff in Hp. destruct Hp as [Hp _].
  apply andb_true_iff in Hp. destruct Hp as [Hp _].
  unfold open_read. now rewrite (unlisted_lookup_root p Hp).
Qed.

Lemma unlisted_root_icon_valid (name : option string) :
  root_icon_valid with_e name = root_icon_valid without_e name.
Proof.
  destruct name as [name|]; [|reflexivity].
  now rewrite !root_icon_valid_char, unlisted_glob_root_icon.
Qed.

Lemma unlisted_other_icon (name : option string) (st : loop_state)
    (p : string) :
  Glob.match_icons p = true ->
  other_icon with_e name st p = other_icon without_e name st p.
Proof.
  intros H.
  unfold other_icon, _check_icon_for_valid_resolution, _get_icon_res,
    Image_open.
  now rewrite (unlisted_lookup_matched p H).
Qed.

Lemma unlisted_other_icons_loop (name : option string) (l : list string)
    (st : loop_state) :
  Forall (fun p => Glob.match_icons p = true) l ->
  other_icons_loop with_e name l st = other_icons_loop without_e name l st.
Proof.
  intros H. revert st. induction H as [|p l Hp _ IH]; intros st; simpl;
    [reflexivity|].
  rewrite (unlisted_other_icon name st p Hp).
  destruct (other_icon without_e name st p); [reflexivity | apply IH].
Qed.

(** The run is the same with the entry and without it. *)
Lemma unlisted_run : run with_e = run without_e.
Proof.
  destruct (main_icon_name without_e) as [e'|name] eqn:Hn.
  { rewrite (run_unreadable _ _ Hn). apply run_unreadable.
    now rewrite unlisted_main_icon_name. }
  assert (main_icon_name with_e = inr name) as Hn'
    by now rewrite unlisted_main_icon_name.
  rewrite (run_shape _ _ Hn), (run_shape _ _ Hn'). cbv zeta.
  rewrite unlisted_root_icon_valid, unlisted_glob_icons.
  rewrite unlisted_other_icons_loop
    by (apply Forall_forall; intros p Hp; now apply filter_In in Hp).
  now rewrite (unlisted_check_root ".DirIcon" eq_refl).
Qed.

End Unlisted.

Lemma match_icons_char (p : string) :
  Glob.match_icons p = true
  <-> exists r,
        PyStr.strip_prefix "usr/share/icons/" p = Some r
        /\ Forall (fun c => Glob.is_hidden c = false) (PyStr.split "/" r)
        /\ PyStr.contains "." (last (PyStr.split "/" r) EmptyString) = true.
Proof.
  unfold Glob.match_icons.
  destruct (PyStr.strip_prefix "usr/share/icons/" p) as [r|].
  - rewrite andb_true_iff, forallb_forall. split.
    + intros [H1 H2]. exists r. split; [reflexivity|]. split; [|exact H2].
      apply Forall_forall. intros c Hc. apply negb_true_iff. now apply H1.
    + intros [r' [E [H1 H2]]]. injection E as <-. split; [|exact H2].
      intros c Hc. apply negb_true_iff.
      now apply (proj1 (Forall_forall _ _) H1).
  - split; [discriminate|]. intros [r [E _]]. discriminate.
Qed.

(** C5, as the code has it. The theme's files that go through the loop
    are the entries that [usr/share/icons/**/*.*] matches: those below
    [usr/share/icons], at any depth, whose last component holds a dot and
    none of whose components starts with a dot. Such a file, when it has
    the icon's name and fails the resolution check, makes the result
    failure. An entry below [usr/share/icons] that the pattern does not
    match (no dot in its name, a hidden name, a hidden directory above it)
    changes nothing: the run is the same with it and without it. *)
Theorem theme_files_looked_at :
  (forall p,
     Glob.match_icons p = true
     <-> exists r,
           PyStr.strip_prefix "usr/share/icons/" p = Some r
           /\ Forall (fun c => Glob.is_hidden c = false) (PyStr.split "/" r)
           /\ PyStr.contains "." (last (PyStr.split "/" r) EmptyString)
              = true)
  /\ (forall m name p st,
        In p (map f_path m) ->
        Glob.match_icons p = true ->
        name_differs (fst (OsPath.splitext (OsPath.basename p))) name
        = false ->
        _check_icon_for_valid_resolution m p = false ->
        other_icons_loop m name (Glob.glob_icons m) (mkState true None)
        = inr st ->
        other_icons_checks_success st = false)
  /\ (forall m1 m2 e,
        PyStr.startswith "usr/share/icons/" (f_path e) = true ->
        Glob.match_icons (f_path e) = false ->
        run (m1 ++ e :: m2) = run (m1 ++ m2)).
Proof.
  split; [exact match_icons_char|]. split.
  - intros m name p st Hin Hm D C H.
    apply (other_icons_loop_flips m name (Glob.glob_icons m) p
             (mkState true None) st); [| |exact H].
    + apply filter_In. now split.
    + intros s s' E.
      destruct (other_icon_related m name s p D) as [ok [E' Hok]].
      rewrite E' in E. injection E as <-. simpl.
      destruct ok; [|reflexivity].
      destruct (Hok eq_refl) as [_ [T _]]. congruence.
  - intros m1 m2 e. apply unlisted_run.
Qed.

(** C5, as stated, fails. In [Bundles.no_extension] the theme file
    [usr/share/icons/hicolor/48x48/apps/foo] has the icon's name and a
    resolution of 100x100, and in [Bundles.hidden_icon] the file
    [.foo.png] has: neither is enumerated, and
    [icons.valid_other_icons] is success. *)
Lemma theme_file_not_enumerated :
  (In "usr/share/icons/hicolor/48x48/apps/foo"
      (map f_path Bundles.no_extension)
   /\ name_differs
        (fst (OsPath.splitext
                (OsPath.basename "usr/share/icons/hicolor/48x48/apps/foo")))
        (Some "foo") = false
   /\ main_icon_name Bundles.no_extension = inr (Some "foo")
   /\ _check_icon_for_valid_resolution Bundles.no_extension
        "usr/share/icons/hicolor/48x48/apps/foo" = false
   /\ Glob.glob_icons Bundles.no_extension = []
   /\ nth_error (yielded (run Bundles.no_extension)) 2
      = Some (valid_other_icons true))
  /\ (In "usr/share/icons/hicolor/48x48/apps/.foo.png"
        (map f_path Bundles.hidden_icon)
      /\ name_differs
           (fst (OsPath.splitext
                   (OsPath.basename
                      "usr/share/icons/hicolor/48x48/apps/.foo.png")))
           (Some ".foo") = false
      /\ main_icon_name Bundles.hidden_icon = inr (Some ".foo")
      /\ _check_icon_for_valid_resolution Bundles.hidden_icon
           "usr/share/icons/hicolor/48x48/apps/.foo.png" = false
      /\ Glob.glob_icons Bundles.hidden_icon = []
      /\ nth_error (yielded (run Bundles.hidden_icon)) 2
         = Some (valid_other_icons true)).
Proof.
  split; (split; [simpl; auto 10 | repeat split; reflexivity]).
Qed.

(** * Further properties of the check *)

(** ** Pieces of the per-file test *)

Lemma split_nonempty (c : ascii) (s : string) : PyStr.split c s <> [].
Proof.
  destruct s as [|b s]; simpl; [discriminate|].
  destruct (Ascii.eqb b c); [discriminate|].
  destruct (PyStr.split c s); discriminate.
Qed.

Lemma ints_length (l : list string) (r : list Z) :
  ints l = Some r -> length r = length l.
Proof.
  intros H. apply ints_values in H.
  induction H; simpl; [reflexivity | now f_equal].
Qed.

Lemma extract_res_nonempty (s : string) (r : list Z) :
  extract_res_from_path_component s = Some r -> truthy (Some r) = true.
Proof.
  unfold extract_res_from_path_component. intros H.
  apply ints_length in H. destruct r as [|a r]; [|reflexivity].
  destruct (PyStr.split "x" s) eqn:E; [|discriminate].
  now apply split_nonempty in E.
Qed.

Lemma check_true_iff (m : MountView) (p : string) :
  _check_icon_for_valid_resolution m p = true
  <-> exists w h,
        _get_icon_res m p = Some (w, h)
        /\ In w _VALID_RESOLUTIONS /\ In h _VALID_RESOLUTIONS.
Proof.
  unfold _check_icon_for_valid_resolution.
  destruct (_get_icon_res m p) as [[w h]|]; cbn [fst snd].
  - rewrite andb_true_iff, !int_in_In. split.
    + intros [Hw Hh]. now exists w, h.
    + intros [w' [h' [E [Hw Hh]]]]. injection E as <- <-. now split.
  - split; [discriminate|]. intros [w [h [E _]]]. discriminate.
Qed.

Lemma res_differ_false_iff (actual_res : option (Z * Z)) (r : list Z) :
  res_differ actual_res (Some r) = false
  <-> exists w h, actual_res = Some (w, h) /\ r = [w; h].
Proof.
  unfold res_differ. destruct actual_res as [[w h]|].
  - destruct r as [|a [|b [|c r]]];
      try (split; [discriminate | intros [w' [h' [_ E]]]; discriminate]).
    rewrite negb_false_iff, andb_true_iff, !Z.eqb_eq. split.
    + intros [-> ->]. now exists a, b.
    + intros [w' [h' [E1 E2]]]. injection E1 as <- <-.
      injection E2 as <- <-. now split.
  - split; [discriminate|]. intros [w [h [E _]]]. discriminate.
Qed.

Lemma expected_path_res_truthy (sp : list string) :
  truthy (expected_path_res sp) = true
  <-> exists theme res file r,
        sp = [theme; res; "apps"; file]
        /\ extract_res_from_path_component res = Some r.
Proof.
  unfold expected_path_res. split.
  - destruct sp as [|a [|b [|c [|d [|e sp]]]]]; simpl; try discriminate.
    destruct (String.eqb_spec c "apps") as [->|]; simpl; [|discriminate].
    destruct (extract_res_from_path_component b) as [r|] eqn:E;
      [|discriminate].
    intros _. now exists a, b, d, r.
  - intros [theme [res [file [r [-> E]]]]]. simpl. rewrite E.
    exact (extract_res_nonempty _ _ E).
Qed.

Lemma recovered_when_expected (sp : list string) :
  truthy (expected_path_res sp) = true ->
  recovered_path_res sp = expected_path_res sp.
Proof. intros H. unfold recovered_path_res. now rewrite H. Qed.

(** What a file of the icon's name does to the flag. *)
Lemma other_icon_related_flag (m : MountView) (name : option string)
    (st : loop_state) (p : string) :
  name_differs (Theme.stem p) name = false ->
  exists ok,
    other_icon m name st p
    = inr (mkState ok (Some (OsPath.relpath p "usr/share/icons")))
    /\ (ok = true
        <-> other_icons_checks_success st = true /\ Theme.well_placed m p).
Proof.
  intros D. unfold Theme.stem in D. unfold other_icon. rewrite D.
  eexists. split; [reflexivity|].
  set (sp := PyStr.split "/" (OsPath.relpath p "usr/share/icons")).
  split.
  - intros H.
    destruct (_check_icon_for_valid_resolution m p) eqn:C;
      [|simpl in H;
        destruct (truthy (expected_path_res sp)),
                 (truthy (recovered_path_res sp)),
                 (res_differ (_get_icon_res m p) (recovered_path_res sp));
        discriminate].
    destruct (truthy (expected_path_res sp)) eqn:T;
      [|simpl in H;
        destruct (truthy (recovered_path_res sp)),
                 (res_differ (_get_icon_res m p) (recovered_path_res sp));
        discriminate].
    rewrite (recovered_when_expected sp T), T in H. simpl in H.
    destruct (res_differ (_get_icon_res m p) (expected_path_res sp)) eqn:R;
      [discriminate|].
    split; [exact H|].
    apply expected_path_res_truthy in T.
    destruct T as [theme [res [file [r [Esp Er]]]]].
    assert (expected_path_res sp = Some r) as Ee.
    { rewrite Esp. unfold expected_path_res. simpl. exact Er. }
    rewrite Ee in R. apply res_differ_false_iff in R.
    destruct R as [w [h [Ea ->]]].
    apply check_true_iff in C. destruct C as [w' [h' [Ea' [Hw Hh]]]].
    rewrite Ea in Ea'. injection Ea' as <- <-.
    now exists theme, res, file, w, h.
  - intros [F [theme [res [file [w [h [Esp [Er [Ea [Hw Hh]]]]]]]]]].
    fold sp in Esp.
    assert (_check_icon_for_valid_resolution m p = true) as C
      by (apply check_true_iff; now exists w, h).
    assert (truthy (expected_path_res sp) = true) as T
      by (apply expected_path_res_truthy; now exists theme, res, file, [w; h]).
    assert (expected_path_res sp = Some [w; h]) as Ee.
    { rewrite Esp. unfold expected_path_res. simpl. exact Er. }
    rewrite C, (recovered_when_expected sp T), T, Ee, Ea, F. simpl.
    now rewrite !Z.eqb_refl.
Qed.

(** Once a file of the icon's name has bound [rel_path], the loop goes
    through all the files that are left. *)
Lemma other_icon_bound (m : MountView) (name : option string)
    (st : loop_state) (p : string) :
  rel_path st <> None ->
  exists st', other_icon m name st p = inr st' /\ rel_path st' <> None.
Proof.
  intros B. unfold other_icon.
  destruct (name_differs _ name).
  - destruct (rel_path st) eqn:E; [|congruence].
    exists st. split; [reflexivity | congruence].
  - eexists. split; [reflexivity | discriminate].
Qed.

Lemma other_icons_loop_bound (m : MountView) (name : option string)
    (l : list string) (st : loop_state) :
  rel_path st <> None ->
  exists st', other_icons_loop m name l st = inr st'.
Proof.
  revert st. induction l as [|p l IH]; intros st B; simpl; [now exists st|].
  destruct (other_icon_bound m name st p B) as [st1 [E B1]].
  rewrite E. now apply IH.
Qed.

Lemma other_icons_loop_flag (m : MountView) (name : option string)
    (l : list string) (st0 st : loop_state) :
  other_icons_loop m name l st0 = inr st ->
  (other_icons_checks_success st = true
   <-> other_icons_checks_success st0 = true
       /\ forall p, In p l -> name_differs (Theme.stem p) name = false ->
                    Theme.well_placed m p).
Proof.
  revert st0. induction l as [|q l IH]; intros st0; simpl.
  - intros H. injection H as <-. split; [|tauto].
    intros F. split; [exact F | contradiction].
  - destruct (other_icon m name st0 q) as [e|st1] eqn:E; [discriminate|].
    intros H. rewrite (IH st1 H).
    destruct (name_differs (Theme.stem q) name) eqn:D.
    + unfold Theme.stem in D. rewrite (other_icon_unrelated _ _ _ _ D) in E.
      destruct (rel_path st0); [|discriminate]. injection E as <-.
      split; intros [F W]; (split; [exact F|]).
      * intros p [<- | Hp] Dp; [|now apply W].
        unfold Theme.stem in Dp. congruence.
      * intros p Hp. apply W. now right.
    + destruct (other_icon_related_flag m name st0 q D) as [ok [E' Hok]].
      rewrite E' in E. injection E as <-. simpl. rewrite Hok.
      split.
      * intros [[F Wq] W]. split; [exact F|].
        intros p [<- | Hp] Dp; [exact Wq | now apply W].
      * intros [F W]. split; [split; [exact F|] |].
        -- apply W; [now left | exact D].
        -- intros p Hp. apply W. now right.
Qed.

Lemma other_icons_loop_raises_iff (m : MountView) (name : option string)
    (l : list string) :
  (exists e, other_icons_loop m name l (mkState true None) = inl e)
  <-> exists p rest, l = p :: rest /\ name_differs (Theme.stem p) name = true.
Proof.
  destruct l as [|p l]; simpl.
  - split; [intros [e H]; discriminate | intros [p [rest [H _]]]; discriminate].
  - destruct (name_differs (Theme.stem p) name) eqn:D.
    + unfold Theme.stem in D. rewrite (other_icon_unrelated _ _ _ _ D). simpl.
      split; [|now eexists]. intros _. exists p, l. split; [reflexivity|].
      exact D.
    + destruct (other_icon_related_flag m name (mkState true None) p D)
        as [ok [E _]].
      rewrite E.
      destruct (other_icons_loop_bound m name l
                  (mkState ok (Some (OsPath.relpath p "usr/share/icons"))))
        as [st' E']; [discriminate|].
      rewrite E'. split; [intros [e H]; discriminate|].
      intros [p' [rest [H Dp]]]. injection H as <- <-. congruence.
Qed.

(** ** The three results, case by case *)

(** X1. A file of the icon's name keeps [icons.valid_other_icons] on
    success exactly when the flag was still on and the file stands at
    [<theme>/<WxH>/apps/<file>] with a decoded resolution that is [WxH]
    and valid. Its extension plays no part. *)
Theorem theme_file_passes_iff (m : MountView) (name : option string)
    (st : loop_state) (p : string) :
  name_differs (Theme.stem p) name = false ->
  (exists rel, other_icon m name st p = inr (mkState true rel))
  <-> other_icons_checks_success st = true /\ Theme.well_placed m p.
Proof.
  intros D. destruct (other_icon_related_flag m name st p D) as [ok [E Hok]].
  rewrite E. rewrite <- Hok. split.
  - intros [rel H]. now injection H.
  - intros ->. now eexists.
Qed.

Lemma theme_file_passes_iff_witness :
  exists rel,
    other_icon (Bundles.theme_icon 48 48) (Some "foo") (mkState true None)
      Bundles.theme_foo
    = inr (mkState true rel).
Proof.
  apply (theme_file_passes_iff (Bundles.theme_icon 48 48) (Some "foo")
           (mkState true None) Bundles.theme_foo).
  - reflexivity.
  - split; [reflexivity|].
    exists "hicolor", "48x48", "foo.png", 48, 48.
    repeat split; try reflexivity; simpl; tauto.
Defined.

(** X2. A file of the icon's name that does not stand at
    [<theme>/<res>/apps/<file>] turns the flag off, whatever resolution
    the guess finds in its path: in [Examples.misplaced_theme_icon] the
    guess finds 48x48, which is the file's resolution, and the result is
    failure. *)
Theorem misplaced_theme_file_fails (m : MountView) (name : option string)
    (st st' : loop_state) (p : string) :
  name_differs (Theme.stem p) name = false ->
  (forall theme res file,
     PyStr.split "/" (OsPath.relpath p "usr/share/icons")
     <> [theme; res; "apps"; file]) ->
  other_icon m name st p = inr st' ->
  other_icons_checks_success st' = false.
Proof.
  intros D Hs H. destruct (other_icon_related_flag m name st p D)
    as [ok [E Hok]].
  rewrite E in H. injection H as <-. simpl.
  destruct ok; [|reflexivity].
  destruct (proj1 Hok eq_refl) as [_ [theme [res [file [w [h [Esp _]]]]]]].
  now apply Hs in Esp.
Qed.

Lemma misplaced_theme_file_fails_witness :
  recovered_path_res
    (PyStr.split "/"
       (OsPath.relpath "usr/share/icons/hicolor/48x48/foo.png"
          "usr/share/icons")) = Some [48; 48]
  /\ _get_icon_res Examples.misplaced_theme_icon
       "usr/share/icons/hicolor/48x48/foo.png" = Some (48, 48)
  /\ forall st',
       other_icon Examples.misplaced_theme_icon (Some "foo")
         (mkState true None) "usr/share/icons/hicolor/48x48/foo.png"
       = inr st' ->
       other_icons_checks_success st' = false.
Proof.
  split; [reflexivity|]. split; [reflexivity|].
  intros st'.
  apply (misplaced_theme_file_fails Examples.misplaced_theme_icon
           (Some "foo") (mkState true None) st'
           "usr/share/icons/hicolor/48x48/foo.png").
  - reflexivity.
  - intros theme res file. vm_compute. discriminate.
Defined.

(** X3. A run raises exactly when the first theme file that [glob]
    lists does not have the icon's name (every file, when no icon name
    was found): then [rel_path] is read unbound. When the first file has
    the icon's name, no later file raises. *)
Theorem run_raises_iff (m : MountView) :
  raised (run m) = Some (UnboundLocalError "rel_path")
  <-> exists name p rest,
        main_icon_name m = inr name
        /\ Glob.glob_icons m = p :: rest
        /\ name_differs (Theme.stem p) name = true.
Proof.
  destruct (main_icon_name m) as [e0|name] eqn:Hn.
  { rewrite (run_unreadable m e0 Hn).
    destruct (main_icon_name_raises m e0 Hn) as [p0 [ps [_ [_ ->]]]].
    split; [discriminate|].
    intros [name [p [rest [Hn' _]]]]. discriminate. }
  rewrite (run_shape m name Hn). cbv zeta.
  pose proof (other_icons_loop_raises_iff m name (Glob.glob_icons m)) as R.
  destruct (other_icons_loop m name (Glob.glob_icons m) (mkState true None))
    as [e|st] eqn:E.
  - rewrite (other_icons_loop_raises _ _ _ _ _ E). split; [|reflexivity].
    intros _. destruct (proj1 R (ex_intro _ e eq_refl)) as [p [rest [G D]]].
    now exists name, p, rest.
  - split; [discriminate|].
    intros [name' [p [rest [Hn' [G D]]]]].
    injection Hn' as <-.
    destruct (proj2 R (ex_intro _ p (ex_intro _ rest (conj G D)))) as [e H].
    discriminate.
Qed.

(** X4. [icons.valid_other_icons] is success exactly when the run does
    not raise and every listed theme file of the icon's name stands at
    [<theme>/<WxH>/apps/<file>] with that resolution, a valid one: no
    file is left out by an early exit, and the order of the files after
    the first does not count. *)
Theorem other_icons_success_iff (m : MountView) :
  nth_error (yielded (run m)) 2 = Some (valid_other_icons true)
  <-> exists name,
        main_icon_name m = inr name
        /\ (forall p rest, Glob.glob_icons m = p :: rest ->
                           name_differs (Theme.stem p) name = false)
        /\ forall p, In p (Glob.glob_icons m) ->
                     name_differs (Theme.stem p) name = false ->
                     Theme.well_placed m p.
Proof.
  destruct (main_icon_name m) as [e0|name] eqn:Hn.
  { rewrite (run_unreadable m e0 Hn). split; [discriminate|].
    intros [name [Hn' _]]. discriminate. }
  rewrite (run_shape m name Hn). cbv zeta.
  pose proof (other_icons_loop_raises_iff m name (Glob.glob_icons m)) as R.
  pose proof (other_icons_loop_flag m name (Glob.glob_icons m)
                (mkState true None)) as F.
  destruct (other_icons_loop m name (Glob.glob_icons m) (mkState true None))
    as [e|st] eqn:E.
  - split; [discriminate|].
    intros [name' [Hn' [H1 _]]]. injection Hn' as <-.
    destruct (proj1 R (ex_intro _ e eq_refl)) as [p [rest [G D]]].
    rewrite (H1 p rest G) in D. discriminate.
  - specialize (F st eq_refl). simpl. split.
    + intros H. injection H as H. exists name. split; [reflexivity|]. split.
      * intros p rest G.
        destruct (name_differs (Theme.stem p) name) eqn:D; [|reflexivity].
        destruct (proj2 R (ex_intro _ p (ex_intro _ rest (conj G D))))
          as [e H']. discriminate.
      * now apply F.
    + intros [name' [Hn' [_ W]]]. injection Hn' as <-.
      do 2 f_equal. apply F. now split.
Qed.

(** X5. Without an icon name (no desktop file in the root, or no [Icon=]
    match in the first one) the first result is failure; the third is
    success when [glob] lists no theme file, and with any theme file
    listed the run raises after two results. *)
Theorem no_icon_name_run (m : MountView) :
  (Glob.glob_desktop m = []
   \/ exists p ps text,
        Glob.glob_desktop m = p :: ps /\ open_read m p = Some text
        /\ Re.search_Icon text = None) ->
  let dotdiricon :=
    valid_dotdiricon (_check_icon_for_valid_resolution m ".DirIcon") in
  (Glob.glob_icons m = [] ->
   run m = ([valid_appdir_root_icon false; dotdiricon;
             valid_other_icons true], inr tt))
  /\ (Glob.glob_icons m <> [] ->
      run m = ([valid_appdir_root_icon false; dotdiricon],
               inl (UnboundLocalError "rel_path"))).
Proof.
  intros H.
  assert (main_icon_name m = inr None) as Hn.
  { unfold main_icon_name.
    destruct H as [-> | [p [ps [text [-> [-> E]]]]]]; [reflexivity|].
    now rewrite E. }
  rewrite (run_shape m None Hn). cbv zeta. split.
  - intros ->. reflexivity.
  - destruct (Glob.glob_icons m) as [|p l]; [congruence|]. intros _.
    cbn [other_icons_loop].
    now rewrite (other_icon_unrelated m None (mkState true None) p eq_refl).
Qed.

Lemma no_icon_name_run_witness :
  run Examples.bare
  = ([valid_appdir_root_icon false; valid_dotdiricon true;
      valid_other_icons true], inr tt)
  /\ run Examples.no_desktop_file
     = ([valid_appdir_root_icon false; valid_dotdiricon true],
        inl (UnboundLocalError "rel_path"))
  /\ run Examples.no_icon_key
     = ([valid_appdir_root_icon false; valid_dotdiricon true;
         valid_other_icons true], inr tt).
Proof.
  split; [|split].
  - apply (no_icon_name_run Examples.bare); [now left | reflexivity].
  - apply (no_icon_name_run Examples.no_desktop_file);
      [now left | discriminate].
  - apply (no_icon_name_run Examples.no_icon_key); [|reflexivity].
    right. exists "app.desktop", [].
    exists (Bundles.text ["[Desktop Entry]"; "Name=App"]).
    repeat split.
Defined.

Lemma run_first (m : MountView) (name : option string) :
  main_icon_name m = inr name ->
  nth_error (yielded (run m)) 0
  = Some (valid_appdir_root_icon (root_icon_valid m name)).
Proof.
  intros Hn. rewrite (run_shape m name Hn). cbv zeta.
  destruct (other_icons_loop m name (Glob.glob_icons m) (mkState true None));
    reflexivity.
Qed.

Lemma run_second (m : MountView) (name : option string) :
  main_icon_name m = inr name ->
  nth_error (yielded (run m)) 1
  = Some (valid_dotdiricon (_check_icon_for_valid_resolution m ".DirIcon")).
Proof.
  intros Hn. rewrite (run_shape m name Hn). cbv zeta.
  destruct (other_icons_loop m name (Glob.glob_icons m) (mkState true None));
    reflexivity.
Qed.

Lemma startswith_hidden (q p : string) :
  PyStr.startswith q p = true -> q <> EmptyString ->
  Glob.is_hidden p = Glob.is_hidden q.
Proof.
  destruct q as [|a q]; [congruence|]. destruct p as [|b p]; [discriminate|].
  simpl. intros H _. apply andb_true_iff in H. destruct H as [E _].
  apply Ascii.eqb_eq in E. now subst b.
Qed.

Lemma match_root_icon_iff (name p : string) :
  Glob.match_root_icon name p = true
  <-> PyStr.contains "/" p = false
      /\ PyStr.startswith (name ++ ".")%string p = true.
Proof.
  unfold Glob.match_root_icon, Glob.in_root.
  rewrite !andb_true_iff, negb_true_iff. split.
  - intros [[H1 _] H2]. now split.
  - intros [H1 H2]. repeat split; try assumption.
    rewrite (startswith_hidden _ _ H2) by (destruct name; discriminate).
    apply orb_negb_r.
Qed.

(** X6. [icons.valid_appdir_root_icon] is success exactly when the first
    desktop file gives an icon name without [/] and the root holds an
    entry whose name starts with that name and a dot. Neither the entry's
    extension nor what it decodes to plays a part: in
    [Examples.only_text_candidate] the entry is [foo.txt]. *)
Theorem root_icon_success_iff (m : MountView) :
  nth_error (yielded (run m)) 0 = Some (valid_appdir_root_icon true)
  <-> exists name p,
        main_icon_name m = inr (Some name)
        /\ PyStr.contains "/" name = false
        /\ In p (map f_path m)
        /\ PyStr.contains "/" p = false
        /\ PyStr.startswith (name ++ ".")%string p = true.
Proof.
  destruct (main_icon_name m) as [e0|name] eqn:Hn.
  { rewrite (run_unreadable m e0 Hn). split; [discriminate|].
    intros [name [p [Hn' _]]]. discriminate. }
  rewrite (run_first m name Hn).
  split.
  - intros H. injection H as H. destruct name as [name|]; [|discriminate].
    rewrite root_icon_valid_char in H. apply andb_true_iff in H.
    destruct H as [Hs Hg]. apply negb_true_iff in Hs.
    destruct (Glob.glob_root_icon m name) as [|p ps] eqn:G; [discriminate|].
    assert (In p (Glob.glob_root_icon m name)) as Hin
      by (rewrite G; now left).
    apply filter_In in Hin. destruct Hin as [Hin Hm].
    apply match_root_icon_iff in Hm. destruct Hm as [H1 H2].
    now exists name, p.
  - intros [name' [p [Hn' [Hs [Hin [H1 H2]]]]]].
    injection Hn' as ->.
    do 2 f_equal. rewrite root_icon_valid_char, Hs. simpl.
    assert (In p (Glob.glob_root_icon m name')) as Hg.
    { apply filter_In. split; [exact Hin|].
      apply match_root_icon_iff. now split. }
    destruct (Glob.glob_root_icon m name'); [contradiction | reflexivity].
Qed.

(** X7. [icons.valid_dotdiricon] is yielded with success exactly when
    the run got past the reading of the desktop file, the root holds
    [.DirIcon], it decodes, and its width and height are both valid. *)
Theorem dotdiricon_success_iff (m : MountView) :
  nth_error (yielded (run m)) 1 = Some (valid_dotdiricon true)
  <-> (exists name, main_icon_name m = inr name)
      /\ exists f w h,
           lookup m ".DirIcon" = Some f /\ f_image f = Opened (w, h)
           /\ In w _VALID_RESOLUTIONS /\ In h _VALID_RESOLUTIONS.
Proof.
  destruct (main_icon_name m) as [e0|name] eqn:Hn.
  { rewrite (run_unreadable m e0 Hn). split; [discriminate|].
    intros [[name Hn'] _]. discriminate. }
  rewrite (run_second m name Hn).
  split.
  - intros H. injection H as H. apply check_true_iff in H.
    destruct H as [w [h [E [Hw Hh]]]].
    unfold _get_icon_res, Image_open in E.
    destruct (lookup m ".DirIcon") as [f|]; [|discriminate].
    destruct (f_image f) as [size|] eqn:I; [|discriminate].
    injection E as ->. split; [now exists name|]. now exists f, w, h.
  - intros [_ [f [w [h [L [I [Hw Hh]]]]]]]. do 2 f_equal.
    apply check_true_iff. exists w, h. repeat split; try assumption.
    unfold _get_icon_res, Image_open. now rewrite L, I.
Qed.

(** ** The extracted name, as a piece of the text *)

Lemma dot_plus_rest (s : string) :
  exists post,
    s = (Re.dot_plus s ++ post)%string
    /\ (post = EmptyString \/ exists post', post = String PyStr.LF post').
Proof.
  induction s as [|b s [post [E H]]]; simpl.
  - exists EmptyString. split; [reflexivity | now left].
  - destruct (Ascii.eqb b PyStr.LF) eqn:Eb.
    + apply Ascii.eqb_eq in Eb. subst b. exists (String PyStr.LF s).
      split; [reflexivity | right; now exists s].
    + exists post. simpl. split; [now rewrite <- E | exact H].
Qed.

Lemma dot_plus_no_newline (s : string) :
  PyStr.contains PyStr.LF (Re.dot_plus s) = false.
Proof.
  induction s as [|b s IH]; simpl; [reflexivity|].
  destruct (Ascii.eqb b PyStr.LF) eqn:Eb; [reflexivity|].
  simpl. now rewrite Eb.
Qed.

Lemma match_here_sound (s v : string) :
  Re.match_here s = Some v ->
  exists rest,
    s = ("Icon=" ++ rest)%string /\ v = Re.dot_plus rest /\ v <> EmptyString.
Proof.
  unfold Re.match_here.
  destruct (PyStr.strip_prefix "Icon=" s) as [rest|] eqn:E; [|discriminate].
  apply strip_prefix_app in E.
  destruct (Re.dot_plus rest) as [|c r] eqn:D; [discriminate|].
  intros H. injection H as <-. exists rest. rewrite D.
  repeat split; [exact E | discriminate].
Qed.

Lemma search_Icon_position (s v : string) :
  Re.search_Icon s = Some v ->
  exists pre t, s = (pre ++ t)%string /\ Re.match_here t = Some v.
Proof.
  induction s as [|b s IH].
  - simpl. discriminate.
  - rewrite search_Icon_step.
    destruct (Re.match_here (String b s)) as [v'|] eqn:M.
    + intros H. injection H as <-. now exists EmptyString, (String b s).
    + intros H. destruct (IH H) as [pre [t [E Mt]]].
      exists (String b pre), t. simpl. now rewrite <- E.
Qed.

(** X8. The icon name read from a desktop file is never empty, holds no
    newline, and is a piece of the text: it stands right after an [Icon=]
    and runs to the end of that line. *)
Theorem search_Icon_sound (s v : string) :
  Re.search_Icon s = Some v ->
  v <> EmptyString
  /\ PyStr.contains PyStr.LF v = false
  /\ exists pre post,
       s = (pre ++ "Icon=" ++ v ++ post)%string
       /\ (post = EmptyString \/ exists post', post = String PyStr.LF post').
Proof.
  intros H. destruct (search_Icon_position s v H) as [pre [t [E M]]].
  destruct (match_here_sound t v M) as [rest [Et [Ev Hv]]].
  split; [exact Hv|]. split; [rewrite Ev; apply dot_plus_no_newline|].
  destruct (dot_plus_rest rest) as [post [Er Hp]].
  exists pre, post. split; [|exact Hp].
  rewrite E, Et, Ev. simpl. now rewrite <- Er.
Qed.

Lemma search_Icon_sound_witness :
  exists pre post,
    Bundles.commented_icon = (pre ++ "Icon=" ++ "old" ++ post)%string
    /\ (post = EmptyString \/ exists post', post = String PyStr.LF post').
Proof.
  apply (search_Icon_sound Bundles.commented_icon "old"). reflexivity.
Defined.

Lemma search_Icon_suffix (pre t : string) :
  Re.search_Icon (pre ++ t)%string = None -> Re.search_Icon t = None.
Proof.
  induction pre as [|a pre IH]; simpl append; [tauto|].
  rewrite search_Icon_step.
  destruct (Re.match_here (String a (pre ++ t))); [discriminate | exact IH].
Qed.

(** X9. No icon name is found exactly when every [Icon=] of the text
    stands at the end of its line, or of the text: an [Icon=] followed
    by any other character gives a name. *)
Theorem search_Icon_none_iff (s : string) :
  Re.search_Icon s = None
  <-> forall pre c rest,
        s = (pre ++ "Icon=" ++ String c rest)%string -> c = PyStr.LF.
Proof.
  split.
  - intros H pre c rest E. rewrite E in H. apply search_Icon_suffix in H.
    change ("Icon=" ++ String c rest)%string
      with (String "I" ("con=" ++ String c rest)%string) in H.
    rewrite search_Icon_step in H.
    change (Re.match_here (String "I" ("con=" ++ String c rest)%string))
      with (match Re.dot_plus (String c rest) with
            | EmptyString => None
            | String a v => Some (String a v)
            end) in H.
    simpl in H. destruct (Ascii.eqb c PyStr.LF) eqn:Ec; [|discriminate].
    now apply Ascii.eqb_eq in Ec.
  - induction s as [|b s IH]; intros H; [reflexivity|].
    rewrite search_Icon_step.
    assert (Re.match_here (String b s) = None) as ->.
    { unfold Re.match_here.
      destruct (PyStr.strip_prefix "Icon=" (String b s)) as [rest|] eqn:E;
        [|reflexivity].
      apply strip_prefix_app in E. destruct rest as [|c r]; [reflexivity|].
      rewrite (H EmptyString c r E). reflexivity. }
    apply IH. intros pre c rest E. apply (H (String b pre) c rest).
    simpl. now rewrite E.
Qed.

Lemma after_Icon_prefix (l r : string) :
  PyStr.strip_prefix "Icon=" l = Some r -> DesktopEntry.after_Icon l = Some r.
Proof.
  intros H. destruct l as [|b l]; [discriminate|].
  rewrite after_Icon_step. now rewrite H.
Qed.

Lemma after_Icon_none_prefix (l : string) :
  DesktopEntry.after_Icon l = None -> PyStr.strip_prefix "Icon=" l = None.
Proof.
  destruct (PyStr.strip_prefix "Icon=" l) as [r|] eqn:E; [|reflexivity].
  rewrite (after_Icon_prefix l r E). discriminate.
Qed.

(** X10. For a desktop file in which every line either holds no [Icon=]
    or begins with [Icon=] and a non-empty value, the name read is the
    value of the first line that begins with [Icon=]. *)
Theorem search_Icon_keys_at_line_start (s : string) :
  Forall
    (fun l =>
       DesktopEntry.after_Icon l = None
       \/ exists c r, PyStr.strip_prefix "Icon=" l = Some (String c r))
    (DesktopEntry.lines s) ->
  Re.search_Icon s = DesktopEntry.icon_of_first_line_beginning s.
Proof.
  rewrite search_Icon_line_oriented.
  unfold DesktopEntry.icon_of_first_line_containing,
    DesktopEntry.icon_of_first_line_beginning.
  induction (DesktopEntry.lines s) as [|l ls IH]; intros H; [reflexivity|].
  inversion H as [|? ? Hl Hls]; subst. cbn [DesktopEntry.first_some].
  rewrite (IH Hls). destruct Hl as [Hn | [c [r Hp]]].
  - unfold DesktopEntry.icon_of_line.
    now rewrite Hn, (after_Icon_none_prefix l Hn).
  - unfold DesktopEntry.icon_of_line.
    now rewrite (after_Icon_prefix l _ Hp), Hp.
Qed.

Lemma search_Icon_keys_at_line_start_witness :
  f_text (Bundles.desktop "Icon=foo")
  = Some (Bundles.text ["[Desktop Entry]"; "Name=App"; "Icon=foo";
                        "Exec=app"])
  /\ Re.search_Icon
       (Bundles.text ["[Desktop Entry]"; "Name=App"; "Icon=foo"; "Exec=app"])
     = DesktopEntry.icon_of_first_line_beginning
         (Bundles.text ["[Desktop Entry]"; "Name=App"; "Icon=foo";
                        "Exec=app"])
  /\ Re.search_Icon
       (Bundles.text ["[Desktop Entry]"; "Name=App"; "Icon=foo"; "Exec=app"])
     = Some "foo".
Proof.
  split; [reflexivity|]. split; [|reflexivity].
  apply (search_Icon_keys_at_line_start
           (Bundles.text ["[Desktop Entry]"; "Name=App"; "Icon=foo";
                          "Exec=app"])).
  repeat (constructor;
          [first [left; reflexivity
                 | right; do 2 eexists; reflexivity]|]).
  constructor.
Defined.

(** ** The resolution guessed from the path *)

(** X11. The guess takes the first component of the path that can be
    read as a resolution, and none after it; it finds nothing exactly
    when no component can be read. *)
Theorem guess_first_match (comps : list string) :
  (forall r,
     guess comps None = Some r
     <-> exists pre c post,
           comps = pre ++ c :: post
           /\ Forall (fun c' => extract_res_from_path_component c' = None) pre
           /\ extract_res_from_path_component c = Some r)
  /\ (guess comps None = None
      <-> Forall (fun c => extract_res_from_path_component c = None) comps).
Proof.
  induction comps as [|c comps [IH1 IH2]]; simpl.
  - split; [|split; [constructor | reflexivity]].
    intros r. split; [discriminate|].
    intros [pre [c [post [E _]]]]. now destruct pre.
  - destruct (extract_res_from_path_component c) as [rc|] eqn:Ec.
    + split.
      * intros r. split.
        -- intros H. injection H as <-. exists [], c, comps.
           repeat split; [constructor | exact Ec].
        -- intros [pre [c' [post [E [Hpre Hc']]]]].
           destruct pre as [|a pre]; simpl in E; injection E as E1 E2;
             subst.
           ++ congruence.
           ++ inversion Hpre; congruence.
      * split; [discriminate|]. intros H. inversion H; congruence.
    + split.
      * intros r. rewrite IH1. split.
        -- intros [pre [c' [post [-> [Hpre Hc']]]]].
           exists (c :: pre), c', post. repeat split; [|exact Hc'].
           now constructor.
        -- intros [pre [c' [post [E [Hpre Hc']]]]].
           destruct pre as [|a pre]; simpl in E; injection E as E1 E2;
             subst.
           ++ congruence.
           ++ inversion Hpre; subst. now exists pre, c', post.
      * rewrite IH2. split.
        -- intros H. now constructor.
        -- intros H. now inversion H.
Qed.

Lemma split_length (c : ascii) (s : string) :
  length (PyStr.split c s) = S (Theme.count c s).
Proof.
  induction s as [|b s IH]; simpl; [reflexivity|].
  destruct (Ascii.eqb b c); simpl; [now rewrite IH|].
  destruct (PyStr.split c s) as [|l ls]; simpl in *; [discriminate|].
  exact IH.
Qed.

(** X12. The tuple read from a path component has one integer more than
    the component has [x]: it is never empty, so that [not path_res]
    means that nothing was read, and it is a pair only for a component
    with exactly one [x]. *)
Theorem extract_res_length (s : string) (r : list Z) :
  extract_res_from_path_component s = Some r ->
  length r = S (Theme.count "x" s) /\ truthy (Some r) = true.
Proof.
  intros H. split; [|exact (extract_res_nonempty s r H)].
  unfold extract_res_from_path_component in H.
  rewrite (ints_length _ _ H). apply split_length.
Qed.

Lemma extract_res_length_witness :
  length [48; 48] = S (Theme.count "x" "48x48")
  /\ truthy (Some [48; 48]) = true.
Proof.
  apply (extract_res_length "48x48" [48; 48]). reflexivity.
Defined.

(** ** Which files have the icon's name *)

Lemma contains_app (c : ascii) (a b : string) :
  PyStr.contains c (a ++ b)%string
  = PyStr.contains c a || PyStr.contains c b.
Proof.
  induction a as [|x a IH]; simpl; [reflexivity|].
  now rewrite IH, orb_assoc.
Qed.

Lemma rfind_absent (c : ascii) (s : string) :
  PyStr.contains c s = false -> PyStr.rfind c s = None.
Proof.
  induction s as [|b s IH]; simpl; [reflexivity|].
  intros H. apply orb_false_iff in H. destruct H as [Hb Hs].
  now rewrite (IH Hs), Hb.
Qed.

Lemma rfind_last (c : ascii) (a b : string) :
  PyStr.contains c b = false ->
  PyStr.rfind c (a ++ String c b)%string = Some (String.length a).
Proof.
  intros H. induction a as [|x a IH]; simpl.
  - now rewrite (rfind_absent c b H), Ascii.eqb_refl.
  - now rewrite IH.
Qed.

Lemma rfind_found (c : ascii) (s : string) (i : nat) :
  PyStr.rfind c s = Some i ->
  exists t, PyStr.drop i s = String c t /\ PyStr.contains c t = false.
Proof.
  revert i. induction s as [|b s IH]; simpl; [discriminate|].
  intros i. destruct (PyStr.rfind c s) as [j|] eqn:R.
  - intros H. injection H as <-. simpl. now apply IH.
  - destruct (Ascii.eqb b c) eqn:E; [|discriminate].
    intros H. injection H as <-. apply Ascii.eqb_eq in E. subst b.
    exists s. split; [reflexivity|].
    clear IH. induction s as [|x s IHs]; [reflexivity|].
    simpl in *. destruct (PyStr.rfind c s); [discriminate|].
    destruct (Ascii.eqb x c); [discriminate|]. now apply IHs.
Qed.

Lemma drop_app_length (a b : string) :
  PyStr.drop (String.length a) (a ++ b)%string = b.
Proof. induction a as [|x a IH]; simpl; [now destruct b | exact IH]. Qed.

Lemma take_app_length (a b : string) :
  PyStr.take (String.length a) (a ++ b)%string = a.
Proof. induction a as [|x a IH]; simpl; [now destruct b | now rewrite IH]. Qed.

Lemma take_drop (i : nat) (s : string) :
  (PyStr.take i s ++ PyStr.drop i s)%string = s.
Proof.
  revert s. induction i as [|i IH]; intros s; [now destruct s|].
  destruct s as [|b s]; simpl; [reflexivity | now rewrite IH].
Qed.

Lemma basename_join (dir f : string) :
  PyStr.contains "/" f = false ->
  OsPath.basename (dir ++ String "/" f)%string = f.
Proof.
  intros H. unfold OsPath.basename. rewrite (rfind_last "/" dir f H).
  change (S (String.length dir)) with (String.length (String "/" dir)).
  induction dir as [|x dir IH]; simpl; [now destruct f | exact IH].
Qed.

Lemma splitext_name_ext (name ext : string) :
  PyStr.contains "/" name = false ->
  PyStr.contains "/" ext = false ->
  PyStr.contains "." ext = false ->
  PyStr.lstrip "." name <> EmptyString ->
  OsPath.splitext (name ++ String "." ext)%string = (name, String "." ext).
Proof.
  intros Hn He Hd Hl. unfold OsPath.splitext.
  rewrite (rfind_absent "/")
    by (rewrite contains_app, Hn; simpl; exact He).
  rewrite (rfind_last "." name ext Hd).
  cbn [Nat.leb andb PyStr.drop]. rewrite Nat.sub_0_r.
  rewrite take_app_length, drop_app_length.
  destruct (String.eqb_spec (PyStr.lstrip "." name) EmptyString) as [E|_];
    [contradiction | reflexivity].
Qed.

(** X13. A file [<dir>/<name>.<ext>] has the name [<name>] for the loop,
    when [<name>] holds no [/] and is not made of dots alone, and
    [<ext>] holds neither [/] nor dot: with the icon name [<name>] such a
    file goes through the tests and never raises. A dot inside [<name>]
    does no harm. *)
Theorem theme_file_named_after_icon (dir name ext : string) :
  PyStr.contains "/" name = false ->
  PyStr.contains "/" ext = false ->
  PyStr.contains "." ext = false ->
  PyStr.lstrip "." name <> EmptyString ->
  let p := (dir ++ "/" ++ name ++ "." ++ ext)%string in
  Theme.stem p = name
  /\ forall m st, exists st', other_icon m (Some name) st p = inr st'.
Proof.
  intros Hn He Hd Hl p.
  assert (Theme.stem p = name) as Hs.
  { unfold Theme.stem, p.
    change ("/" ++ name ++ "." ++ ext)%string
      with (String "/" (name ++ String "." ext)%string).
    rewrite basename_join by (rewrite contains_app, Hn; simpl; exact He).
    now rewrite splitext_name_ext. }
  split; [exact Hs|]. intros m st.
  destruct (other_icon_related_flag m (Some name) st p) as [ok [E _]].
  - rewrite Hs. simpl. now rewrite String.eqb_refl.
  - eexists. exact E.
Qed.

Lemma theme_file_named_after_icon_witness :
  Theme.stem "usr/share/icons/hicolor/48x48/apps/org.gnome.App.png"
  = "org.gnome.App".
Proof.
  apply (theme_file_named_after_icon "usr/share/icons/hicolor/48x48/apps"
           "org.gnome.App" "png"); try reflexivity.
  discriminate.
Defined.

(** X14. Conversely, a file that the loop takes for the icon's is named
    by the icon name followed by nothing, or by one extension: a dot and
    characters without dot. *)
Theorem theme_file_name_shape (name p : string) :
  name_differs (Theme.stem p) (Some name) = false ->
  exists ext,
    OsPath.basename p = (name ++ ext)%string
    /\ (ext = EmptyString
        \/ exists e, ext = String "." e /\ PyStr.contains "." e = false).
Proof.
  unfold name_differs, Theme.stem. rewrite negb_false_iff.
  intros H. apply String.eqb_eq in H.
  set (f := OsPath.basename p) in *. unfold OsPath.splitext in H.
  destruct (PyStr.rfind "." f) as [d|] eqn:R.
  - match type of H with
    | fst (if ?c then _ else _) = _ => destruct c
    end; simpl in H.
    + exists (PyStr.drop d f). split; [now rewrite <- H, take_drop|].
      right. exact (rfind_found "." f d R).
    + exists EmptyString. split; [|now left].
      rewrite <- H. clear. induction f; simpl; [reflexivity | now f_equal].
  - exists EmptyString. split; [|now left].
    simpl in H. rewrite <- H. clear. induction f; simpl;
      [reflexivity | now f_equal].
Qed.

Lemma theme_file_name_shape_witness :
  exists ext,
    OsPath.basename Bundles.theme_foo = ("foo" ++ ext)%string
    /\ (ext = EmptyString
        \/ exists e, ext = String "." e /\ PyStr.contains "." e = false).
Proof.
  apply (theme_file_name_shape "foo" Bundles.theme_foo). reflexivity.
Defined.

(** * Properties of the command line *)

Section CliRun.

Variable env : Cli.Env.

Let returns (path : string) (cls : Cli.check_cls) : Prop :=
  snd (Cli.check_run env cls path) = Cli.Returned.

Lemma run_checks_returned (path : string) (classes : list Cli.check_cls)
    (per : Cli.PathResults) (log : list Cli.LogLine) :
  Forall (returns path) classes ->
  Cli.run_checks env path classes per log
  = (per ++ map (fun cls => (cls, fst (Cli.check_run env cls path))) classes,
     log ++ flat_map
              (fun cls =>
                 Cli.log_lines path cls (fst (Cli.check_run env cls path)))
              classes,
     Cli.Returned).
Proof.
  intros H. revert per log.
  induction H as [|cls classes Hc _ IH]; intros per log; simpl.
  - now rewrite !app_nil_r.
  - unfold returns in Hc.
    destruct (Cli.check_run env cls path) as [rs e]. simpl in Hc. subst e.
    rewrite IH. simpl. now rewrite <- !app_assoc.
Qed.

Lemma run_checks_stops (path : string) (before after : list Cli.check_cls)
    (cls : Cli.check_cls) (rs : list TestResult) (e : Cli.ending)
    (per : Cli.PathResults) (log : list Cli.LogLine) :
  Forall (returns path) before ->
  Cli.check_run env cls path = (rs, e) -> e <> Cli.Returned ->
  Cli.run_checks env path (before ++ cls :: after) per log
  = (per ++ map (fun c => (c, fst (Cli.check_run env c path))) before
         ++ [(cls, rs)],
     log ++ flat_map
              (fun c => Cli.log_lines path c (fst (Cli.check_run env c path)))
              before
         ++ Cli.log_lines path cls rs,
     e).
Proof.
  intros H Hc He. revert per log.
  induction H as [|c before Hr _ IH]; intros per log; simpl.
  - rewrite Hc. destruct e; [congruence | reflexivity | reflexivity].
  - unfold returns in Hr.
    destruct (Cli.check_run env c path) as [rs' e']. simpl in Hr. subst e'.
    rewrite IH. simpl. now rewrite <- !app_assoc.
Qed.

(** The checks of a path: all of them return, or there is a first one
    that does not. *)
Lemma checks_return_or_not (path : string) (classes : list Cli.check_cls) :
  Forall (returns path) classes
  \/ exists before cls after,
       classes = before ++ cls :: after
       /\ Forall (returns path) before /\ ~ returns path cls.
Proof.
  induction classes as [|c classes [IH | [before [cls [after [E [Hb Hc]]]]]]].
  - left. constructor.
  - destruct (snd (Cli.check_run env c path)) eqn:R.
    + left. now constructor.
    + right. exists [], c, classes. repeat split; [constructor|].
      unfold returns. rewrite R. discriminate.
    + right. exists [], c, classes. repeat split; [constructor|].
      unfold returns. rewrite R. discriminate.
  - destruct (snd (Cli.check_run env c path)) eqn:R.
    + right. exists (c :: before), cls, after. rewrite E.
      repeat split; [now constructor | exact Hc].
    + right. exists [], c, classes. repeat split; [constructor|].
      unfold returns. rewrite R. discriminate.
    + right. exists [], c, classes. repeat split; [constructor|].
      unfold returns. rewrite R. discriminate.
Qed.

Let all_return (path : string) : Prop :=
  Forall (returns path) Cli.check_classes.

Lemma run_paths_returned (paths : list string) (st : Cli.State) :
  Forall all_return paths ->
  Cli.run_paths env paths st
  = (Cli.mkSt
       (fold_left (fun d p => Cli.dict_set p (Cli.path_results env p) d)
          paths (Cli.results st))
       (Cli.logged st ++ flat_map (Cli.path_log env) paths),
     Cli.Returned).
Proof.
  intros H. revert st.
  induction H as [|p paths Hp _ IH]; intros st.
  - simpl. rewrite app_nil_r. now destruct st.
  - cbn [Cli.run_paths].
    rewrite (run_checks_returned p Cli.check_classes [] (Cli.logged st) Hp).
    rewrite IH. cbn [Cli.results Cli.logged fold_left flat_map app].
    unfold Cli.path_results, Cli.path_log. now rewrite <- app_assoc.
Qed.

Lemma run_paths_stops (before after : list string) (path : string)
    (cbefore cafter : list Cli.check_cls) (cls : Cli.check_cls)
    (rs : list TestResult) (e : Cli.ending) (st : Cli.State) :
  Forall all_return before ->
  Cli.check_classes = cbefore ++ cls :: cafter ->
  Forall (returns path) cbefore ->
  Cli.check_run env cls path = (rs, e) -> e <> Cli.Returned ->
  exists res,
    Cli.run_paths env (before ++ path :: after) st
    = (Cli.mkSt res
         (Cli.logged st ++ flat_map (Cli.path_log env) before
          ++ flat_map
               (fun c =>
                  Cli.log_lines path c (fst (Cli.check_run env c path)))
               cbefore
          ++ Cli.log_lines path cls rs),
       e).
Proof.
  intros Hb Hsplit Hcb Hc He. revert st.
  induction Hb as [|p before Hp _ IH]; intros st.
  - cbn [app Cli.run_paths flat_map]. rewrite Hsplit.
    rewrite (run_checks_stops path cbefore cafter cls rs e []
               (Cli.logged st) Hcb Hc He).
    eexists. destruct e; [congruence | reflexivity | reflexivity].
  - cbn [app Cli.run_paths].
    rewrite (run_checks_returned p Cli.check_classes [] (Cli.logged st) Hp).
    cbv beta iota zeta.
    match goal with
    | |- context [Cli.run_paths env (before ++ path :: after) ?s] =>
        destruct (IH s) as [res E]
    end.
    exists res. rewrite E. cbn [Cli.logged flat_map].
    unfold Cli.path_log. now rewrite <- !app_assoc.
Qed.

Lemma paths_return_or_not (paths : list string) :
  Forall all_return paths
  \/ exists before path after cbefore cls cafter,
       paths = before ++ path :: after
       /\ Forall all_return before
       /\ Cli.check_classes = cbefore ++ cls :: cafter
       /\ Forall (returns path) cbefore /\ ~ returns path cls.
Proof.
  induction paths as [|p paths IH]; [left; constructor|].
  destruct (checks_return_or_not p Cli.check_classes)
    as [Hp | [cbefore [cls [cafter [E [Hb Hc]]]]]].
  - destruct IH as [IH | [before [path [after [cb [cls [ca [E [Hb H]]]]]]]]].
    + left. now constructor.
    + right. exists (p :: before), path, after, cb, cls, ca.
      rewrite E. split; [reflexivity|]. split; [now constructor | exact H].
  - right. exists [], p, paths, cbefore, cls, cafter.
    repeat split; try assumption. constructor.
Qed.

End CliRun.

Lemma dict_get_set_eq {V} (k : string) (v : V) (d : list (string * V)) :
  Cli.dict_get k (Cli.dict_set k v d) = Some v.
Proof.
  induction d as [|[k' v'] d IH]; simpl.
  - now rewrite String.eqb_refl.
  - destruct (String.eqb k' k) eqn:E; simpl.
    + now rewrite String.eqb_refl.
    + now rewrite E.
Qed.

Lemma dict_get_set_ne {V} (k q : string) (v : V) (d : list (string * V)) :
  k <> q -> Cli.dict_get q (Cli.dict_set k v d) = Cli.dict_get q d.
Proof.
  intros H. induction d as [|[k' v'] d IH]; simpl.
  - destruct (String.eqb_spec k q); [contradiction | reflexivity].
  - destruct (String.eqb_spec k' k) as [->|]; simpl.
    + destruct (String.eqb_spec k q); [contradiction | reflexivity].
    + now rewrite IH.
Qed.

Lemma results_of_paths (env : Cli.Env) (paths : list string)
    (d : list (string * Cli.PathResults)) (q : string) :
  Cli.dict_get q
    (fold_left (fun d p => Cli.dict_set p (Cli.path_results env p) d) paths d)
  = if existsb (String.eqb q) paths then Some (Cli.path_results env q)
    else Cli.dict_get q d.
Proof.
  revert d. induction paths as [|p paths IH]; intros d; simpl;
    [reflexivity|].
  rewrite IH. destruct (existsb (String.eqb q) paths).
  - now rewrite orb_true_r.
  - rewrite orb_false_r. destruct (String.eqb_spec q p) as [->|N].
    + apply dict_get_set_eq.
    + apply dict_get_set_ne. congruence.
Qed.

Lemma dict_set_keys {V} (k x : string) (v : V) (d : list (string * V)) :
  In x (map fst (Cli.dict_set k v d)) -> x = k \/ In x (map fst d).
Proof.
  induction d as [|[k' v'] d IH]; simpl.
  - intros [<- | []]. now left.
  - destruct (String.eqb_spec k' k) as [->|N]; simpl.
    + intros [<- | H]; [now left | right; now right].
    + intros [<- | H]; [right; now left|].
      destruct (IH H) as [-> | H']; [now left | right; now right].
Qed.

Lemma dict_set_nodup {V} (k : string) (v : V) (d : list (string * V)) :
  NoDup (map fst d) -> NoDup (map fst (Cli.dict_set k v d)).
Proof.
  induction d as [|[k' v'] d IH]; simpl; intros H.
  - constructor; [tauto | constructor].
  - inversion H as [|? ? Hn Hd]; subst.
    destruct (String.eqb_spec k' k) as [->|N]; simpl.
    + now constructor.
    + constructor; [|now apply IH].
      intros Hin. destruct (dict_set_keys _ _ _ _ Hin) as [-> | H'];
        [congruence | contradiction].
Qed.

Lemma results_nodup (env : Cli.Env) (paths : list string)
    (d : list (string * Cli.PathResults)) :
  NoDup (map fst d) ->
  NoDup
    (map fst
       (fold_left (fun d p => Cli.dict_set p (Cli.path_results env p) d)
          paths d)).
Proof.
  revert d. induction paths as [|p paths IH]; intros d H; simpl;
    [exact H|].
  apply IH. now apply dict_set_nodup.
Qed.

Lemma all_classes (P : Cli.check_cls -> Prop) :
  Forall P Cli.check_classes <-> forall cls, P cls.
Proof.
  split.
  - intros H cls. rewrite Forall_forall in H. apply H.
    destruct cls; simpl; tauto.
  - intros H. apply Forall_forall. intros cls _. apply H.
Qed.

Lemma all_paths_return (env : Cli.Env) (paths : list string) :
  Forall
    (fun p =>
       Forall (fun cls => snd (Cli.check_run env cls p) = Cli.Returned)
         Cli.check_classes) paths
  <-> forall p cls, In p paths ->
                    snd (Cli.check_run env cls p) = Cli.Returned.
Proof.
  rewrite Forall_forall. split.
  - intros H p cls Hp. exact (proj1 (all_classes _) (H p Hp) cls).
  - intros H p Hp. apply all_classes. intros cls. now apply H.
Qed.

Lemma cli_exit_returns (env : Cli.Env) (paths : list string)
    (json_report : option string) :
  Cli.out_exit (Cli.run env paths json_report) = Cli.Returns
  <-> forall p cls, In p paths ->
                    snd (Cli.check_run env cls p) = Cli.Returned.
Proof.
  rewrite <- all_paths_return. unfold Cli.run.
  destruct (paths_return_or_not env paths)
    as [H | [before [path [after [cb [cls [ca [E [Hb [Hs [Hcb Hc]]]]]]]]]]].
  - rewrite (run_paths_returned env paths _ H). simpl. tauto.
  - destruct (Cli.check_run env cls path) as [rs e] eqn:R.
    assert (e <> Cli.Returned) as He by (intros ->; apply Hc; reflexivity).
    destruct (run_paths_stops env before after path cb ca cls rs e
                (Cli.mkSt [] []) Hb Hs Hcb R He) as [res Er].
    rewrite E, Er. split.
    + destruct e; [congruence | discriminate | discriminate].
    + intros H. exfalso. apply Hc.
      rewrite Forall_forall in H.
      assert (In path (before ++ path :: after)) as Hin
        by (apply in_or_app; right; now left).
      rewrite <- R. exact (proj1 (all_classes _) (H path Hin) cls).
Qed.

Lemma cli_report_returns (env : Cli.Env) (paths : list string)
    (json_report : option string) :
  Cli.out_report (Cli.run env paths json_report) <> None ->
  Cli.out_exit (Cli.run env paths json_report) = Cli.Returns.
Proof.
  unfold Cli.run. destruct (Cli.run_paths env paths (Cli.mkSt [] []))
    as [st e].
  destruct e; simpl; congruence.
Qed.

(** X15. When every check of every path returns, [cli.run] returns; the
    log holds every result, path after path and check after check, in
    the order in which they were yielded; and when [--json-report] names
    a file, the report holds for each path of the command line the
    results of its three checks, once. Without a file name no report is
    written. *)
Theorem cli_run_complete (env : Cli.Env) (paths : list string)
    (json_report : option string) :
  (forall p cls, In p paths ->
                 snd (Cli.check_run env cls p) = Cli.Returned) ->
  let o := Cli.run env paths json_report in
  Cli.out_exit o = Cli.Returns
  /\ Cli.out_log o = flat_map (Cli.path_log env) paths
  /\ match Cli.report_wanted json_report with
     | None => Cli.out_report o = None
     | Some f =>
         exists res,
           Cli.out_report o = Some (f, res)
           /\ NoDup (map fst res)
           /\ forall q,
                Cli.dict_get q res
                = if existsb (String.eqb q) paths
                  then Some (Cli.path_results env q) else None
     end.
Proof.
  intros H o. subst o. apply all_paths_return in H. unfold Cli.run.
  rewrite (run_paths_returned env paths _ H). simpl.
  split; [reflexivity|]. split; [reflexivity|].
  destruct (Cli.report_wanted json_report) as [f|]; [|reflexivity].
  eexists. split; [reflexivity|]. split.
  - apply results_nodup. constructor.
  - intros q. now rewrite results_of_paths.
Qed.

Lemma cli_run_complete_witness :
  let o :=
    Cli.run (Cli.quiet_env (Bundles.theme_icon 48 48))
      ["a.AppImage"; "b.AppImage"; "a.AppImage"] (Some "report.json") in
  Cli.out_exit o = Cli.Returns
  /\ Cli.out_log o
     = flat_map (Cli.path_log (Cli.quiet_env (Bundles.theme_icon 48 48)))
         ["a.AppImage"; "b.AppImage"; "a.AppImage"]
  /\ exists res,
       Cli.out_report o = Some ("report.json", res)
       /\ NoDup (map fst res)
       /\ forall q,
            Cli.dict_get q res
            = if existsb (String.eqb q)
                   ["a.AppImage"; "b.AppImage"; "a.AppImage"]
              then Some (Cli.path_results
                           (Cli.quiet_env (Bundles.theme_icon 48 48)) q)
              else None.
Proof.
  apply (cli_run_complete (Cli.quiet_env (Bundles.theme_icon 48 48))
           ["a.AppImage"; "b.AppImage"; "a.AppImage"] (Some "report.json")).
  intros p cls _. destruct cls; reflexivity.
Defined.

(** X16. When a check does not return, [cli.run] stops there: what the
    checks yielded up to that point is in the log, no path and no check
    after it is run, and no report is written, whatever [--json-report]
    says. [KeyboardInterrupt] ends the run with [sys.exit(2)]; any other
    exception leaves [cli.run]. *)
Theorem cli_run_stops (env : Cli.Env) (before after : list string)
    (path : string) (cbefore cafter : list Cli.check_cls)
    (cls : Cli.check_cls) (rs : list TestResult) (e : Cli.ending)
    (json_report : option string) :
  (forall p c, In p before -> snd (Cli.check_run env c p) = Cli.Returned) ->
  Cli.check_classes = cbefore ++ cls :: cafter ->
  (forall c, In c cbefore -> snd (Cli.check_run env c path) = Cli.Returned) ->
  Cli.check_run env cls path = (rs, e) -> e <> Cli.Returned ->
  let o := Cli.run env (before ++ path :: after) json_report in
  Cli.out_report o = None
  /\ Cli.out_exit o
     = match e with
       | Cli.Failed x => Cli.Propagates x
       | _ => Cli.SysExit 2
       end
  /\ Cli.out_log o
     = flat_map (Cli.path_log env) before
       ++ flat_map
            (fun c => Cli.log_lines path c (fst (Cli.check_run env c path)))
            cbefore
       ++ Cli.log_lines path cls rs.
Proof.
  intros Hb Hs Hcb R He o. subst o.
  apply all_paths_return in Hb.
  assert (Forall (fun c => snd (Cli.check_run env c path) = Cli.Returned)
            cbefore) as Hcb' by (now apply Forall_forall).
  destruct (run_paths_stops env before after path cbefore cafter cls rs e
              (Cli.mkSt [] []) Hb Hs Hcb' R He) as [res Er].
  unfold Cli.run. rewrite Er.
  destruct e; [congruence | |]; simpl; repeat split.
Qed.

Lemma cli_run_stops_witness :
  let o :=
    Cli.run (Cli.quiet_env Bundles.only_unrelated_icon)
      ["a.AppImage"; "b.AppImage"] (Some "report.json") in
  Cli.out_report o = None
  /\ Cli.out_exit o = Cli.Propagates (UnboundLocalError "rel_path")
  /\ Cli.out_log o
     = [("a.AppImage", Cli.Icons, valid_appdir_root_icon true);
        ("a.AppImage", Cli.Icons, valid_dotdiricon true)].
Proof.
  apply (cli_run_stops (Cli.quiet_env Bundles.only_unrelated_icon)
           [] ["b.AppImage"] "a.AppImage" [Cli.GlibcABI; Cli.GlibcxxABI] []
           Cli.Icons
           [valid_appdir_root_icon true; valid_dotdiricon true]
           (Cli.Failed (UnboundLocalError "rel_path"))
           (Some "report.json")).
  - intros p c [].
  - reflexivity.
  - intros c [<- | [<- | []]]; reflexivity.
  - reflexivity.
  - discriminate.
Defined.

(** X17. [cli.run] returns exactly when every check of every path of
    the command line returns, and a report is written only then. *)
Theorem cli_run_returns_iff (env : Cli.Env) (paths : list string)
    (json_report : option string) :
  (Cli.out_exit (Cli.run env paths json_report) = Cli.Returns
   <-> forall p cls, In p paths ->
                     snd (Cli.check_run env cls p) = Cli.Returned)
  /\ (Cli.out_report (Cli.run env paths json_report) <> None ->
      forall p cls, In p paths ->
                    snd (Cli.check_run env cls p) = Cli.Returned).
Proof.
  split; [apply cli_exit_returns|].
  intros H. apply (cli_exit_returns env paths json_report).
  now apply cli_report_returns.
Qed.

(** X18. One AppImage whose first listed theme file does not have the
    icon's name is enough for [cli.run] not to return and for no report
    to be written, for any of the paths of the command line. *)
Theorem unrelated_theme_file_stops_cli (env : Cli.Env) (paths : list string)
    (json_report : option string) (path : string) (name : option string)
    (p : string) (rest : list string) :
  In path paths ->
  main_icon_name (Cli.mount env path) = inr name ->
  Glob.glob_icons (Cli.mount env path) = p :: rest ->
  name_differs (Theme.stem p) name = true ->
  Cli.out_report (Cli.run env paths json_report) = None
  /\ Cli.out_exit (Cli.run env paths json_report) <> Cli.Returns.
Proof.
  intros Hin Hn G D.
  assert (Cli.out_exit (Cli.run env paths json_report) <> Cli.Returns) as Hx.
  { intros Hr.
    pose proof (proj1 (cli_exit_returns env paths json_report) Hr
                  path Cli.Icons Hin) as R.
    simpl in R. unfold Cli.icons_run in R. simpl in R.
    rewrite (run_shape _ name Hn) in R. cbv zeta in R.
    destruct (proj2 (other_icons_loop_raises_iff (Cli.mount env path) name
                       (Glob.glob_icons (Cli.mount env path)))
                (ex_intro _ p (ex_intro _ rest (conj G D)))) as [e E].
    rewrite E in R. discriminate. }
  split; [|exact Hx].
  destruct (Cli.out_report (Cli.run env paths json_report)) eqn:Er;
    [|reflexivity].
  exfalso. apply Hx. apply cli_report_returns. congruence.
Qed.

Lemma unrelated_theme_file_stops_cli_witness :
  Cli.out_report
    (Cli.run (Cli.quiet_env Bundles.unrelated_theme_icon)
       ["a.AppImage"] (Some "report.json")) = None
  /\ Cli.out_exit
       (Cli.run (Cli.quiet_env Bundles.unrelated_theme_icon)
          ["a.AppImage"] (Some "report.json")) <> Cli.Returns.
Proof.
  apply (unrelated_theme_file_stops_cli
           (Cli.quiet_env Bundles.unrelated_theme_icon) ["a.AppImage"]
           (Some "report.json") "a.AppImage" (Some "foo")
           "usr/share/icons/hicolor/48x48/apps/bar.png"
           [Bundles.theme_foo]).
  - now left.
  - reflexivity.
  - reflexivity.
  - reflexivity.
Defined.

(** * A desktop file that cannot be read *)

(** X19. When [open] or [read] raises for the first desktop file that
    [glob] lists, the run yields no result at all and ends with that
    exception, whatever [.DirIcon] and the theme hold: in
    [Examples.unreadable_desktop] the [.DirIcon] is a valid one. *)
Theorem unreadable_desktop_file_run (m : MountView) (p : string)
    (ps : list string) :
  Glob.glob_desktop m = p :: ps ->
  open_read m p = None ->
  run m = ([], inl (OpenReadError p)).
Proof.
  intros G R. apply run_unreadable. unfold main_icon_name.
  now rewrite G, R.
Qed.

Lemma unreadable_desktop_file_run_witness :
  _check_icon_for_valid_resolution Examples.unreadable_desktop ".DirIcon"
  = true
  /\ run Examples.unreadable_desktop = ([], inl (OpenReadError "app.desktop")).
Proof.
  split; [reflexivity|].
  apply (unreadable_desktop_file_run Examples.unreadable_desktop
           "app.desktop" []); reflexivity.
Defined.
